(** * Kalpana Core Authority: policy engine, audit logger and IPC dispatch

    A shallow embedding of [kalpana-core/src/main.py] (with the request
    builder of [kalpana-core/src/ipc_client.py]) and the properties of the
    policy evaluation, the audit log and the request identifiers. *)

From Stdlib Require Import ZArith NArith Ascii String List Bool Lia Sorted.
From Stdlib Require Import Strings.Byte.
From stdpp Require Import base option list sorting gmap strings.

Set Warnings "-register-all".

(** ** Python values received over the wire

    The IPC payload is whatever [json.loads] produces: a dictionary whose
    values are untyped.  JSON numbers are kept as integers; a float behaves
    like an integer in every operation below (hashable, not a container,
    never equal to a string). *)

Inductive pyval : Type :=
  | PNone
  | PBool (b : bool)
  | PInt (n : Z)
  | PStr (s : string)
  | PList (l : list pyval)
  | PDict (d : list (string * pyval)).

(** Exceptions that the modelled code can raise. *)
Inductive exn : Type :=
  | TypeError
  | OSError.

Inductive result (A : Type) : Type :=
  | Ok (a : A)
  | Raise (e : exn).
Arguments Ok {A} a.
Arguments Raise {A} e.

(** [s in t] on two Python strings: [s] occurs in [t] as a substring. *)
Fixpoint str_contains (needle hay : string) : bool :=
  String.prefix needle hay ||
  match hay with
  | EmptyString => false
  | String _ hay' => str_contains needle hay'
  end.

(** [v == s] where [s] is a string literal. *)
Definition py_eq_str (v : pyval) (s : string) : bool :=
  match v with
  | PStr s' => bool_decide (s' = s)
  | _ => false
  end.

(** [s in v] for a string [s] and an arbitrary value [v]: substring test on
    a string, element test on a list, key test on a dictionary, and
    [TypeError] on a value that is not a container. *)
Definition py_str_in (s : string) (v : pyval) : result bool :=
  match v with
  | PStr t => Ok (str_contains s t)
  | PList l => Ok (existsb (fun x => py_eq_str x s) l)
  | PDict d => Ok (existsb (fun kv => bool_decide (fst kv = s)) d)
  | PNone | PBool _ | PInt _ => Raise TypeError
  end.

(** [hash(v)] succeeds: lists and dictionaries are unhashable. *)
Definition hashable (v : pyval) : bool :=
  match v with
  | PList _ | PDict _ => false
  | _ => true
  end.

(** [any(f(x) for x in xs)]: stops at the first true element, and an
    exception raised by an element test propagates. *)
Fixpoint py_any {A} (f : A → result bool) (xs : list A) : result bool :=
  match xs with
  | [] => Ok false
  | x :: xs' =>
      match f x with
      | Raise e => Raise e
      | Ok true => Ok true
      | Ok false => py_any f xs'
      end
  end.

(** ** Enums and data classes *)

Inductive ActionType : Type :=
  | PROCESS_START
  | PROCESS_KILL
  | FILE_READ
  | FILE_WRITE
  | FILE_DELETE
  | NETWORK_CONNECT
  | NETWORK_LISTEN
  | SYSTEM_COMMAND
  | PRIVILEGE_ESCALATE
  | PACKAGE_INSTALL
  | SERVICE_CONTROL.

Inductive Decision : Type :=
  | ALLOW
  | DENY
  | AUDIT
  | SANDBOX.

Global Instance ActionType_eq_dec : EqDecision ActionType.
Proof. solve_decision. Defined.

Global Instance Decision_eq_dec : EqDecision Decision.
Proof. solve_decision. Defined.

(** The [.value] of the enum members. *)
Definition ActionType_value (a : ActionType) : string :=
  match a with
  | PROCESS_START => "process_start"
  | PROCESS_KILL => "process_kill"
  | FILE_READ => "file_read"
  | FILE_WRITE => "file_write"
  | FILE_DELETE => "file_delete"
  | NETWORK_CONNECT => "network_connect"
  | NETWORK_LISTEN => "network_listen"
  | SYSTEM_COMMAND => "system_command"
  | PRIVILEGE_ESCALATE => "privilege_escalate"
  | PACKAGE_INSTALL => "package_install"
  | SERVICE_CONTROL => "service_control"
  end.

Definition Decision_value (d : Decision) : string :=
  match d with
  | ALLOW => "allow"
  | DENY => "deny"
  | AUDIT => "audit"
  | SANDBOX => "sandbox"
  end.

(** A reading of the wall clock, [datetime.now()], at the resolution that
    the identifiers use. *)
Record datetime : Type := {
  year : N;
  month : N;
  day : N;
  hour : N;
  minute : N;
  second : N
}.

Record ActionRequest : Type := {
  id : string;
  action_type : ActionType;
  requestor_pid : pyval;
  requestor_uid : pyval;
  requestor_name : pyval;
  target : pyval;
  parameters : pyval;
  timestamp : datetime
}.

Record ActionResponse : Type := {
  request_id : string;
  decision : Decision;
  reason : string;
  constraints : list (string * pyval);
  expires_at : option datetime
}.

Record AuditEntry : Type := {
  entry_timestamp : datetime;
  request : ActionRequest;
  response : ActionResponse;
  execution_result : option string
}.

(** [ActionResponse(request_id=..., decision=..., reason=...)]: the two
    remaining fields take their defaults. *)
Definition mkResponse (rid : string) (d : Decision) (why : string) : ActionResponse :=
  {| request_id := rid; decision := d; reason := why;
     constraints := []; expires_at := None |}.

(** ** Policy engine *)

Record PolicyEngine : Type := {
  policies : list pyval;
  trusted_processes : gset string;
  blocked_paths : gset string
}.

(** The state built by [PolicyEngine.__init__], given the policy documents
    found on disk. *)
Definition PolicyEngine_init (docs : list pyval) : PolicyEngine :=
  {| policies := docs;
     trusted_processes := {[ "kalpana-shell"; "kalpana-ui"; "systemd" ]};
     blocked_paths := {[ "/boot"; "/kalpana/core" ]} |}.

Definition is_modification (a : ActionType) : bool :=
  match a with
  | FILE_WRITE | FILE_DELETE => true
  | _ => false
  end.

Definition is_network (a : ActionType) : bool :=
  match a with
  | NETWORK_CONNECT | NETWORK_LISTEN => true
  | _ => false
  end.

(** [any(blocked in request.target for blocked in self.blocked_paths)].
    The order in which the set is walked does not show: on a string, a list
    or a dictionary no test raises, and on any other target the first test
    does, whichever entry it is. *)
Definition targets_blocked (pe : PolicyEngine) (req : ActionRequest) : result bool :=
  py_any (fun blocked => py_str_in blocked (target req))
         (elements (blocked_paths pe)).

(** The rules that look only at the kind of action (rules 3 to 5). *)
Definition category_rules (req : ActionRequest) : ActionResponse :=
  if is_network (action_type req) then
    mkResponse (id req) AUDIT "Network action logged for review"
  else if bool_decide (action_type req = PRIVILEGE_ESCALATE) then
    mkResponse (id req) DENY "Privilege escalation requires Kalpana approval"
  else
    mkResponse (id req) SANDBOX "Unknown action sandboxed by default".

(** [request.requestor_name in self.trusted_processes], then rules 3 to 5.
    The name is hashed by the set lookup, so a list or a dictionary raises;
    only a string can be a member, and it is then printed as it is. *)
Definition trusted_rule (pe : PolicyEngine) (req : ActionRequest) : result ActionResponse :=
  match requestor_name req with
  | PStr n =>
      if bool_decide (n ∈ trusted_processes pe) then
        Ok (mkResponse (id req) ALLOW ("Trusted process: " +:+ n))
      else Ok (category_rules req)
  | PList _ | PDict _ => Raise TypeError
  | PNone | PBool _ | PInt _ => Ok (category_rules req)
  end.

Definition evaluate (pe : PolicyEngine) (req : ActionRequest) : result ActionResponse :=
  if is_modification (action_type req) then
    match targets_blocked pe req with
    | Raise e => Raise e
    | Ok true =>
        Ok (mkResponse (id req) DENY
              "Protected system path - modification forbidden")
    | Ok false => trusted_rule pe req
    end
  else trusted_rule pe req.

(** ** Formatting of numbers and timestamps *)

Definition digit_char (d : N) : ascii := ascii_of_N (48 + d).

(** The last [w] decimal digits of [n], most significant first. *)
Fixpoint fixed_digits (w : nat) (n : N) : string :=
  match w with
  | O => ""
  | S w' => fixed_digits w' (n / 10) +:+ String (digit_char (n mod 10)) ""
  end.

Fixpoint ndigits_fuel (fuel : nat) (n : N) : nat :=
  match fuel with
  | O => 1
  | S fuel' => if (n <? 10)%N then 1 else S (ndigits_fuel fuel' (n / 10))
  end.

(** Number of decimal digits of [n] (one for zero).  A number has no more
    decimal digits than binary ones, which bounds the recursion. *)
Definition ndigits (n : N) : nat := ndigits_fuel (N.to_nat (N.size n)) n.

(** The format specification [{n:0wd}] on a non-negative integer: decimal,
    padded with zeros on the left to at least [w] characters, and never
    truncated. *)
Definition format_0d (w : nat) (n : N) : string :=
  fixed_digits (Nat.max w (ndigits n)) n.

(** [strftime('%Y%m%d%H%M%S')], as the C library of the platform does it:
    the year in decimal, not padded (a year below 1000 has fewer than four
    digits), and every other field padded to two digits. *)
Definition strftime_compact (t : datetime) : string :=
  format_0d 1 (year t) +:+ format_0d 2 (month t) +:+ format_0d 2 (day t) +:+
  format_0d 2 (hour t) +:+ format_0d 2 (minute t) +:+ format_0d 2 (second t).

(** The values [datetime.now()] can take: a calendar date with a year of
    four digits, and a time of day. *)
Definition datetime_wf (t : datetime) : Prop :=
  (1000 ≤ year t ≤ 9999)%N ∧ (1 ≤ month t ≤ 12)%N ∧ (1 ≤ day t ≤ 31)%N ∧
  (hour t ≤ 23)%N ∧ (minute t ≤ 59)%N ∧ (second t ≤ 59)%N.

(** Chronological comparison of two clock readings. *)
Definition lex (c1 c2 : comparison) : comparison :=
  match c1 with Eq => c2 | _ => c1 end.

Definition datetime_compare (a b : datetime) : comparison :=
  lex (year a ?= year b)%N (lex (month a ?= month b)%N (lex (day a ?= day b)%N
  (lex (hour a ?= hour b)%N (lex (minute a ?= minute b)%N (second a ?= second b)%N)))).

Definition datetime_le (a b : datetime) : Prop := datetime_compare a b ≠ Gt.

(** [f"REQ-{now:%Y%m%d%H%M%S}-{counter:06d}"] *)
Definition format_request_id (now : datetime) (counter : N) : string :=
  "REQ-" +:+ strftime_compact now +:+ "-" +:+ format_0d 6 counter.

(** Python's [<] on strings: lexicographic on code points. *)
Definition str_lt (s1 s2 : string) : Prop := String.compare s1 s2 = Lt.

(** ** A state monad in which exceptions leave the state as it is

    A Python method mutates [self] and may raise half way: the mutations
    made before the exception stay. *)

Definition M (S A : Type) : Type := S → result A * S.

Definition ret {S A} (a : A) : M S A := fun s => (Ok a, s).

Definition bind {S A B} (m : M S A) (k : A → M S B) : M S B :=
  fun s =>
    match m s with
    | (Ok a, s') => k a s'
    | (Raise e, s') => (Raise e, s')
    end.

Definition raise {S A} (e : exn) : M S A := fun s => (Raise e, s).

Definition gets {S A} (f : S → A) : M S A := fun s => (Ok (f s), s).

Definition modify {S} (f : S → S) : M S unit := fun s => (Ok tt, f s).

Definition lift_result {S A} (r : result A) : M S A := fun s => (r, s).

(** Run a computation on a component of the state. *)
Definition zoom {S T A} (get : S → T) (set : T → S → S) (m : M T A) : M S A :=
  fun s => let '(r, t') := m (get s) in (r, set t' s).

Declare Scope py_scope.
Delimit Scope py_scope with py.
Notation "'do' x <- m ; k" := (bind m (fun x => k))
  (at level 10, x name, m at level 100, k at level 200) : py_scope.

(** ** Audit logger *)

(** One line of the persisted log: the dictionary that [log] serialises. *)
Record LogLine : Type := {
  ll_timestamp : datetime;
  ll_request_id : string;
  ll_action : string;
  ll_requestor : pyval;
  ll_target : pyval;
  ll_decision : string;
  ll_reason : string
}.

(** The in-memory sequence, and the lines the log file holds. *)
Record AuditLogger : Type := {
  entries : list AuditEntry;
  log_file : list LogLine
}.

Definition AuditLogger_init (file : list LogLine) : AuditLogger :=
  {| entries := []; log_file := file |}.

Definition log_line_of (entry : AuditEntry) : LogLine :=
  {| ll_timestamp := entry_timestamp entry;
     ll_request_id := id (request entry);
     ll_action := ActionType_value (action_type (request entry));
     ll_requestor := requestor_name (request entry);
     ll_target := target (request entry);
     ll_decision := Decision_value (decision (response entry));
     ll_reason := reason (response entry) |}.

(** [AuditLogger.log].  [disk_ok] tells whether the log file can be opened
    for appending and written at this call; when it cannot, [open] or
    [write] raises [OSError], which nothing in [log] catches. *)
Definition log (disk_ok : bool) (entry : AuditEntry) : M AuditLogger unit :=
  (do _ <- modify (fun a => {| entries := entries a ++ [entry];
                               log_file := log_file a |});
   if disk_ok then
     modify (fun a => {| entries := entries a;
                         log_file := log_file a ++ [log_line_of entry] |})
   else raise OSError)%py.

(** [xs[start:]] for a Python list and any integer [start]: a negative
    index counts from the end, and indices out of range are clamped. *)
Definition py_slice_from {A} (start : Z) (xs : list A) : list A :=
  if (start <? 0)%Z
  then drop (Z.to_nat (Z.max 0 (Z.of_nat (length xs) + start))) xs
  else drop (Z.to_nat start) xs.

(** [AuditLogger.query].  Enum members are truthy, so [if action_type:]
    tests that the filter was given.  A caller that gives no limit gets the
    default, 100. *)
Definition query (a : AuditLogger) (action_type_filter : option ActionType)
    (decision_filter : option Decision) (limit : Z) : list AuditEntry :=
  let results := entries a in
  let results :=
    match action_type_filter with
    | Some k => filter (fun e => action_type (request e) = k) results
    | None => results
    end in
  let results :=
    match decision_filter with
    | Some d => filter (fun e => decision (response e) = d) results
    | None => results
    end in
  py_slice_from (- limit) results.

(** ** The authority *)

(** The fields of [KalpanaCore] that the request path reads or writes.  The
    IPC server handle, the [running] flag and the table of monitored
    processes take no part in it. *)
Record KalpanaCore : Type := {
  policy : PolicyEngine;
  audit : AuditLogger;
  request_counter : N;
  last_decision : option ActionResponse
}.

Definition KalpanaCore_init (docs : list pyval) (file : list LogLine) : KalpanaCore :=
  {| policy := PolicyEngine_init docs;
     audit := AuditLogger_init file;
     request_counter := 0;
     last_decision := None |}.

Definition set_audit (a : AuditLogger) (c : KalpanaCore) : KalpanaCore :=
  {| policy := policy c; audit := a;
     request_counter := request_counter c; last_decision := last_decision c |}.

Definition set_request_counter (n : N) (c : KalpanaCore) : KalpanaCore :=
  {| policy := policy c; audit := audit c;
     request_counter := n; last_decision := last_decision c |}.

Definition set_last_decision (r : option ActionResponse) (c : KalpanaCore) : KalpanaCore :=
  {| policy := policy c; audit := audit c;
     request_counter := request_counter c; last_decision := r |}.

(** A JSON object as received: [request.get(key, default)]. *)
Definition dict_get (request : gmap string pyval) (key : string) (dflt : pyval) : pyval :=
  default dflt (request !! key).

Definition _generate_request_id (now : datetime) : M KalpanaCore string :=
  (do _ <- modify (fun c => set_request_counter (request_counter c + 1) c);
   do n <- gets request_counter;
   ret (format_request_id now n))%py.

(** What one call of [handle_execute] takes from its environment: the three
    readings of the clock (for the identifier, for the request's default
    timestamp and for the audit entry) and the state of the log file. *)
Record CallEnv : Type := {
  now_id : datetime;
  now_request : datetime;
  now_entry : datetime;
  disk_ok : bool
}.

(** The dictionary returned by [handle_execute]. *)
Record ExecuteResponse : Type := {
  er_request_id : string;
  er_decision : string;
  er_reason : string;
  er_allowed : bool
}.

(** The [ActionRequest(...)] expression of [handle_execute]. *)
Definition action_request_of (rid : string) (now : datetime)
    (request : gmap string pyval) : ActionRequest :=
  {| id := rid;
     action_type := SYSTEM_COMMAND;
     requestor_pid := dict_get request "pid" (PInt 0);
     requestor_uid := dict_get request "uid" (PInt 0);
     requestor_name := dict_get request "process" (PStr "unknown");
     target := dict_get request "command" (PStr "");
     parameters := dict_get request "args" (PDict []);
     timestamp := now |}.

(** The dictionary expression that [handle_execute] returns. *)
Definition execute_response_of (response : ActionResponse) : ExecuteResponse :=
  {| er_request_id := request_id response;
     er_decision := Decision_value (decision response);
     er_reason := reason response;
     er_allowed := bool_decide (decision response ∈ [ALLOW; AUDIT]) |}.

(** The audit entry that [handle_execute] logs. *)
Definition audit_entry_of (now : datetime) (req : ActionRequest)
    (resp : ActionResponse) : AuditEntry :=
  {| entry_timestamp := now; request := req; response := resp;
     execution_result := None |}.

(** The method that [self.policy.evaluate(...)] calls on the engine held by
    the authority. *)
Definition EvaluateMethod : Type := PolicyEngine → ActionRequest → result ActionResponse.

(** The body of [handle_execute], with the method of the policy engine as
    a parameter: what the body hands to the engine can then be told apart
    from what the engine does with it. *)
Definition handle_execute_with (evaluate_method : EvaluateMethod) (env : CallEnv)
    (request : gmap string pyval) : M KalpanaCore ExecuteResponse :=
  (do rid <- _generate_request_id (now_id env);
   let action_request := action_request_of rid (now_request env) request in
   do pe <- gets policy;
   do response <- lift_result (evaluate_method pe action_request);
   do _ <- modify (set_last_decision (Some response));
   do _ <- zoom audit set_audit
             (log (disk_ok env)
                (audit_entry_of (now_entry env) action_request response));
   ret (execute_response_of response))%py.

(** [KalpanaCore.handle_execute]: the engine is a [PolicyEngine], whose
    method is [evaluate]. *)
Definition handle_execute (env : CallEnv) (request : gmap string pyval)
    : M KalpanaCore ExecuteResponse :=
  handle_execute_with evaluate env request.

Record StatusResponse : Type := {
  sr_status : string;
  sr_uptime : string;
  sr_requests_processed : N;
  sr_mode : string;
  sr_policies_loaded : nat;
  sr_audit_entries : nat
}.

Inductive ExplainResponse : Type :=
  | NoDecision (explanation : string)
  | Explained (rid decision_value why explanation : string).

(** The dictionaries that [process_request] returns, one shape per command.
    [ErrorReply cmd] is [{"error": f"Unknown command: {cmd}"}]. *)
Inductive IpcResponse : Type :=
  | ExecuteReply (r : ExecuteResponse)
  | StatusReply (s : StatusResponse)
  | AuditReply (audit_entries : list AuditEntry)
  | ExplainReply (e : ExplainResponse)
  | ErrorReply (cmd : pyval).

Section Dispatch.
(** The module-level switch read from the environment at import. *)
Variable DEV_MODE : bool.

Definition get_status (c : KalpanaCore) : StatusResponse :=
  {| sr_status := "online";
     sr_uptime := "N/A";
     sr_requests_processed := request_counter c;
     sr_mode := if DEV_MODE then "development" else "production";
     sr_policies_loaded := length (policies (policy c));
     sr_audit_entries := length (entries (audit c)) |}.

Definition explain_last_decision (c : KalpanaCore) : ExplainResponse :=
  match last_decision c with
  | None => NoDecision "No decisions made yet."
  | Some d =>
      Explained (request_id d) (Decision_value (decision d)) (reason d)
        ("The action was " +:+ Decision_value (decision d) +:+
         " because: " +:+ reason d)
  end.

(** The body of [process_request], over the method of the policy engine
    that [self.core] holds. *)
Definition process_request_with (evaluate_method : EvaluateMethod) (env : CallEnv)
    (request : gmap string pyval) : M KalpanaCore IpcResponse :=
  let cmd := dict_get request "command" PNone in
  (if py_eq_str cmd "execute" then
     do r <- handle_execute_with evaluate_method env request; ret (ExecuteReply r)
   else if py_eq_str cmd "status" then
     do c <- gets (fun c => c); ret (StatusReply (get_status c))
   else if py_eq_str cmd "audit" then
     do c <- gets (fun c => c);
     ret (AuditReply (query (audit c) None None 50))
   else if py_eq_str cmd "explain" then
     do c <- gets (fun c => c); ret (ExplainReply (explain_last_decision c))
   else ret (ErrorReply cmd))%py.

(** [IPCServer.process_request] on a decoded JSON object. *)
Definition process_request (env : CallEnv) (request : gmap string pyval)
    : M KalpanaCore IpcResponse :=
  process_request_with evaluate env request.
End Dispatch.

(** ** The client library *)

(** The payload [KalpanaIPCClient.execute] sends; [args or {}] replaces a
    missing argument dictionary by an empty one. *)
Definition client_execute (command : string) (args : option (list (string * pyval)))
    (pid uid : Z) : gmap string pyval :=
  {[ "command" := PStr "execute";
     "cmd" := PStr command;
     "args" := PDict (default [] args);
     "pid" := PInt pid;
     "uid" := PInt uid;
     "process" := PStr "kalpana-shell" ]}.

(** The payload [KalpanaIPCClient.get_audit_log] sends. *)
Definition client_get_audit_log (limit : Z) : gmap string pyval :=
  {[ "command" := PStr "audit"; "limit" := PInt limit ]}.

(** ** Runs *)

(** A sequence of [execute] calls on one authority.  A call that raises
    ends its connection, not the process: the next call sees the state the
    failed one left. *)
Fixpoint execute_calls (calls : list (CallEnv * gmap string pyval)) (c : KalpanaCore)
    : list (result ExecuteResponse) * KalpanaCore :=
  match calls with
  | [] => ([], c)
  | (env, request) :: rest =>
      let '(r, c') := handle_execute env request c in
      let '(rs, c'') := execute_calls rest c' in
      (r :: rs, c'')
  end.

(** A sequence of IPC requests of any kind served by one authority. *)
Fixpoint process_requests (DEV_MODE : bool)
    (calls : list (CallEnv * gmap string pyval)) (c : KalpanaCore)
    : list (result IpcResponse) * KalpanaCore :=
  match calls with
  | [] => ([], c)
  | (env, request) :: rest =>
      let '(r, c') := process_request DEV_MODE env request c in
      let '(rs, c'') := process_requests DEV_MODE rest c' in
      (r :: rs, c'')
  end.

(** The identifiers produced by successive calls of [_generate_request_id],
    one per reading of the clock. *)
Fixpoint generate_ids (clock : list datetime) (c : KalpanaCore) : list string :=
  match clock with
  | [] => []
  | now :: rest =>
      match _generate_request_id now c with
      | (Ok rid, c') => rid :: generate_ids rest c'
      | (Raise _, c') => generate_ids rest c'
      end
  end.

(** ** Specification vocabulary and sample data *)

(** The dispatcher sends the payload to the execute path. *)
Definition routes_to_execute (request : gmap string pyval) : Prop :=
  py_eq_str (dict_get request "command" PNone) "execute" = true.

(** An entry passes the filters of a query: an omitted filter passes
    everything, and two filters must both hold. *)
Definition passes (k : option ActionType) (d : option Decision) (e : AuditEntry) : bool :=
  match k with Some k' => bool_decide (action_type (request e) = k') | None => true end &&
  match d with Some d' => bool_decide (decision (response e) = d') | None => true end.

(** The entries that pass the filters, in arrival order. *)
Definition matching (a : AuditLogger) (k : option ActionType) (d : option Decision)
    : list AuditEntry :=
  filter (fun e => passes k d e = true) (entries a).

(** The payload names its requester by a value that can be looked up in a
    set: a string as the protocol has it, or at least no array or object.
    A missing name is replaced by "unknown". *)
Definition process_hashable (request : gmap string pyval) : Prop :=
  hashable (dict_get request "process" (PStr "unknown")) = true.

(** A request as the data class declares it: the requester name and the
    target are strings. *)
Definition well_formed (req : ActionRequest) : Prop :=
  (∃ n, requestor_name req = PStr n) ∧ (∃ t, target req = PStr t).

(** The target matches an entry of the protected-path set: some entry
    occurs in it. *)
Definition target_protected (pe : PolicyEngine) (req : ActionRequest) : Prop :=
  ∃ t b, target req = PStr t ∧ b ∈ blocked_paths pe ∧ str_contains b t = true.

(** The requester process name is in the trusted-process set. *)
Definition requester_trusted (pe : PolicyEngine) (req : ActionRequest) : Prop :=
  ∃ n, requestor_name req = PStr n ∧ n ∈ trusted_processes pe.

Definition modifies (req : ActionRequest) : Prop :=
  action_type req = FILE_WRITE ∨ action_type req = FILE_DELETE.

Definition uses_network (req : ActionRequest) : Prop :=
  action_type req = NETWORK_CONNECT ∨ action_type req = NETWORK_LISTEN.

Definition sample_time : datetime :=
  {| year := 2024; month := 3; day := 9; hour := 7; minute := 5; second := 0 |}.

Definition sample_time_later : datetime :=
  {| year := 2024; month := 3; day := 9; hour := 7; minute := 5; second := 1 |}.

Definition sample_request (name : string) (kind : ActionType) (tgt : string)
    : ActionRequest :=
  {| id := "REQ-20240309070500-000001"; action_type := kind;
     requestor_pid := PInt 4242; requestor_uid := PInt 1000;
     requestor_name := PStr name; target := PStr tgt;
     parameters := PDict []; timestamp := sample_time |}.

Definition default_policy : PolicyEngine := PolicyEngine_init [].

Definition sample_env : CallEnv :=
  {| now_id := sample_time; now_request := sample_time;
     now_entry := sample_time; disk_ok := true |}.

(** The same call with a log file that cannot be written. *)
Definition sample_env_disk_full : CallEnv :=
  {| now_id := sample_time; now_request := sample_time;
     now_entry := sample_time; disk_ok := false |}.

Definition fresh_core : KalpanaCore := KalpanaCore_init [] [].

(** Two execute calls sent through the client library; the log file cannot
    be written during the second. *)
Definition sample_calls : list (CallEnv * gmap string pyval) :=
  [ (sample_env, client_execute "ls -la" None 4242 1000);
    (sample_env_disk_full, client_execute "pwd" None 4242 1000) ].

(** The authority after the two sample calls. *)
Definition busy_core : KalpanaCore := (execute_calls sample_calls fresh_core).2.

(** ** Vocabulary for the further properties *)

(** A value that is no container: [x in v] raises [TypeError] on it. *)
Definition is_scalar (v : pyval) : bool :=
  match v with
  | PNone | PBool _ | PInt _ => true
  | PStr _ | PList _ | PDict _ => false
  end.

(** The dispatcher's test [cmd == "execute"], as a boolean. *)
Definition is_execute (request : gmap string pyval) : bool :=
  py_eq_str (dict_get request "command" PNone) "execute".

(** How many requests of a sequence go to the execute path. *)
Definition count_execute (calls : list (CallEnv * gmap string pyval)) : nat :=
  length (filter (fun call => is_execute call.2 = true) calls).

(** ** The wire: length-prefixed frames on a byte stream

    Both ends write a message as [struct.pack(">I", len(data))] followed by
    [data], and read one with [read(4)], [struct.unpack(">I", ...)] and
    [read(msg_length)]. *)

Definition byte_of_N (n : N) : byte :=
  match Byte.of_N (n mod 256) with
  | Some b => b
  | None => x00
  end.

(** [struct.pack(">I", n)]: four bytes, most significant first;
    [struct.error] ([None]) when [n] does not fit in 32 bits. *)
Definition pack_u32_be (n : N) : option (list byte) :=
  if (n <? 2 ^ 32)%N
  then Some [byte_of_N (n / 2 ^ 24); byte_of_N (n / 2 ^ 16);
             byte_of_N (n / 2 ^ 8); byte_of_N n]
  else None.

(** [struct.unpack(">I", bs)[0]]: [struct.error] ([None]) unless [bs] has
    exactly four bytes. *)
Definition unpack_u32_be (bs : list byte) : option N :=
  match bs with
  | [b3; b2; b1; b0] =>
      Some (Byte.to_N b3 * 2 ^ 24 + Byte.to_N b2 * 2 ^ 16 +
            Byte.to_N b1 * 2 ^ 8 + Byte.to_N b0)%N
  | _ => None
  end.

(** What a writer sends for one message. *)
Definition frame (data : list byte) : option (list byte) :=
  match pack_u32_be (N.of_nat (length data)) with
  | Some header => Some (header ++ data)
  | None => None
  end.

(** An [asyncio.StreamReader]: the bytes received and not yet read, and
    the chunks that the transport will still deliver before the end of the
    stream. *)
Record Reader : Type := {
  buffered : list byte;
  arriving : list (list byte)
}.

(** The next delivery that wakes a waiting reader: [feed_data] ignores an
    empty chunk, and when no chunk is left the end of the stream wakes it
    with nothing. *)
Fixpoint next_chunk (chunks : list (list byte)) : list byte * list (list byte) :=
  match chunks with
  | [] => ([], [])
  | [] :: rest => next_chunk rest
  | chunk :: rest => (chunk, rest)
  end.

(** [_wait_for_data]: entered only when the buffer is empty. *)
Definition wait_for_data (r : Reader) : Reader :=
  match buffered r with
  | [] => let '(chunk, rest) := next_chunk (arriving r) in
          {| buffered := chunk; arriving := rest |}
  | _ :: _ => r
  end.

(** [await reader.read(n)] for [n >= 0]: nothing for [n = 0]; otherwise
    wait only if the buffer is empty, then take at most [n] bytes of what
    is there. *)
Definition read (n : N) (r : Reader) : list byte * Reader :=
  if (n =? 0)%N then ([], r)
  else
    let r' := wait_for_data r in
    (take (N.to_nat n) (buffered r'),
     {| buffered := drop (N.to_nat n) (buffered r'); arriving := arriving r' |}).

(** The outcome of reading one message. *)
Inductive FrameRead : Type :=
  | FrameEof
  | FrameBadHeader (length_data : list byte)
  | FrameBody (msg_length : N) (msg_data : list byte).

(** The reading steps shared by [handle_client] and [send_request]: the
    length prefix, the test for the end of the stream, the decoding of the
    prefix and the read of the body. *)
Definition read_frame (r : Reader) : FrameRead * Reader :=
  let '(length_data, r1) := read 4 r in
  match length_data with
  | [] => (FrameEof, r1)
  | _ :: _ =>
      match unpack_u32_be length_data with
      | None => (FrameBadHeader length_data, r1)
      | Some msg_length =>
          let '(msg_data, r2) := read msg_length r1 in
          (FrameBody msg_length msg_data, r2)
      end
  end.

Definition sample_bytes : list byte := [x7b; x7d].

(** ** One client connection

    The [try] block of [IPCServer.handle_client] with its [except] clause,
    for one connection looked at alone: the other connections run only
    while this one waits, and what they do to the authority in the meantime
    is not part of the model.  The incoming stream is one that ends: a
    finite sequence of chunks followed by the end of the stream.  The
    closing of the writer in the [finally] clause is not modelled. *)

(** Why a connection was torn down by the [except Exception] clause. *)
Inductive Failure : Type :=
  | BadLengthPrefix        (* struct.error from unpack *)
  | BadJson                (* decode() or json.loads() raised *)
  | NotAnObject            (* request.get on a value that is no dict *)
  | HandlerRaised (e : exn)
  | NotSerializable        (* TypeError from json.dumps *)
  | ResponseTooLong        (* struct.error from pack *)
  | ConnectionLost.        (* ConnectionResetError from drain *)

Inductive Ending : Type :=
  | PeerClosed
  | ConnectionError (why : Failure).

(** The dictionary that [json.loads] builds from the members of a JSON
    object: a name that occurs twice keeps its last value. *)
Definition dict_of_pairs (d : list (string * pyval)) : gmap string pyval :=
  list_to_map (reverse d).

(** The default JSON encoder accepts dictionaries of strings, numbers and
    booleans.  The audit reply holds the [__dict__] of each entry, whose
    values are a [datetime] and two data class instances: the encoder
    raises [TypeError] on the first entry. *)
Definition json_serializable (response : IpcResponse) : bool :=
  match response with
  | AuditReply (_ :: _) => false
  | _ => true
  end.

(** Chunks that the transport delivers while the handler is suspended
    without waiting for them, as [drain] may be. *)
Fixpoint deliver (k : nat) (r : Reader) : Reader :=
  match k with
  | O => r
  | S k' =>
      let '(chunk, rest) := next_chunk (arriving r) in
      deliver k' {| buffered := buffered r ++ chunk; arriving := rest |}
  end.

(** How [await writer.drain()] goes after a response was handed to the
    writer: it returns; or it raises [ConnectionResetError] because the
    connection was lost (the peer has closed its end); or, the write buffer
    being full and the peer not reading, it waits and is never woken. *)
Inductive Drain : Type :=
  | Drained
  | DrainRaised
  | DrainBlocked.

(** What one turn of the loop takes from its environment. *)
Record FrameEnv : Type := {
  call_env : CallEnv;
  drain : Drain;
  delivered_while_draining : nat
}.

(** One turn of the loop.  It leaves the loop before anything is written
    ([Stop]), or hands one frame to the writer; after that the drain
    returns and the loop goes on ([Continue]), or raises and the loop is
    left ([Lost]), or never returns ([Stalled]). *)
Inductive Step : Type :=
  | Stop (e : Ending) (r : Reader) (c : KalpanaCore)
  | Continue (out : list byte) (r : Reader) (c : KalpanaCore)
  | Lost (out : list byte) (r : Reader) (c : KalpanaCore)
  | Stalled (out : list byte) (r : Reader) (c : KalpanaCore).

(** [writer.write(...)] twice, then [await writer.drain()]: the frame is
    handed to the writer, which does not fail, and the drain decides what
    follows. *)
Definition after_write (env : FrameEnv) (out : list byte) (r : Reader) (c : KalpanaCore)
    : Step :=
  match drain env with
  | Drained => Continue out (deliver (delivered_while_draining env) r) c
  | DrainRaised => Lost out r c
  | DrainBlocked => Stalled out r c
  end.

(** What becomes of the handler: the loop is left, by [break] or through
    the [except] clause, or the handler waits in a drain for ever. *)
Inductive Outcome : Type :=
  | LoopLeft (e : Ending)
  | WaitsInDrain.

(** What [handle_client] has done by then: the bytes handed to the writer,
    the state of the authority and the number of responses written;
    [ending] is [None] only if the recursion below was cut short. *)
Record Served : Type := {
  ending : option Outcome;
  sent : list byte;
  core_after : KalpanaCore;
  frames_served : nat
}.

Definition stream_size (r : Reader) : nat :=
  length (buffered r) + length (concat (arriving r)).

Section Connection.
Variable DEV_MODE : bool.
(** [json.loads(msg_data.decode())]; [None] when either raises. *)
Variable json_loads : list byte → option pyval.
(** [json.dumps(response).encode()] on a response the encoder accepts. *)
Variable json_dumps : IpcResponse → list byte.

(** From the bytes of a message to the bytes of its answer: decoding,
    dispatch and encoding. *)
Definition handle_message (env : CallEnv) (msg_data : list byte) (c : KalpanaCore)
    : (Failure + list byte) * KalpanaCore :=
  match json_loads msg_data with
  | None => (inl BadJson, c)
  | Some (PDict d) =>
      match process_request DEV_MODE env (dict_of_pairs d) c with
      | (Raise e, c') => (inl (HandlerRaised e), c')
      | (Ok response, c') =>
          if json_serializable response
          then (inr (json_dumps response), c')
          else (inl NotSerializable, c')
      end
  | Some _ => (inl NotAnObject, c)
  end.

(** The body of the [while True] loop. *)
Definition serve_frame (env : FrameEnv) (r : Reader) (c : KalpanaCore) : Step :=
  match read_frame r with
  | (FrameEof, r1) => Stop PeerClosed r1 c
  | (FrameBadHeader _, r1) => Stop (ConnectionError BadLengthPrefix) r1 c
  | (FrameBody _ msg_data, r2) =>
      match handle_message (call_env env) msg_data c with
      | (inl why, c') => Stop (ConnectionError why) r2 c'
      | (inr response_data, c') =>
          match frame response_data with
          | None => Stop (ConnectionError ResponseTooLong) r2 c'
          | Some f => after_write env f r2 c'
          end
      end
  end.

Fixpoint handle_client_loop (fuel : nat) (envs : nat → FrameEnv) (i : nat)
    (r : Reader) (out : list byte) (c : KalpanaCore) : Served :=
  match fuel with
  | O => {| ending := None; sent := out; core_after := c; frames_served := i |}
  | S fuel' =>
      match serve_frame (envs i) r c with
      | Stop e _ c' =>
          {| ending := Some (LoopLeft e); sent := out; core_after := c';
             frames_served := i |}
      | Continue f r' c' => handle_client_loop fuel' envs (S i) r' (out ++ f) c'
      | Lost f _ c' =>
          {| ending := Some (LoopLeft (ConnectionError ConnectionLost));
             sent := out ++ f; core_after := c'; frames_served := S i |}
      | Stalled f _ c' =>
          {| ending := Some WaitsInDrain; sent := out ++ f; core_after := c';
             frames_served := S i |}
      end
  end.

(** The loop of [IPCServer.handle_client].  Every turn that goes on has
    read a length prefix, so the turns are fewer than the bytes of the
    stream. *)
Definition handle_client (envs : nat → FrameEnv) (r : Reader) (c : KalpanaCore) : Served :=
  handle_client_loop (S (stream_size r)) envs 0 r [] c.

(** What the connection does with a sequence of messages taken as they
    are, without the byte stream: answer each in turn and stop at the first
    that fails, or at the first whose response is not drained. *)
Fixpoint dispatch_all (envs : nat → FrameEnv) (i : nat) (bodies : list (list byte))
    (out : list byte) (c : KalpanaCore) : Served :=
  match bodies with
  | [] => {| ending := Some (LoopLeft PeerClosed); sent := out; core_after := c;
             frames_served := i |}
  | msg_data :: rest =>
      match handle_message (call_env (envs i)) msg_data c with
      | (inl why, c') =>
          {| ending := Some (LoopLeft (ConnectionError why)); sent := out;
             core_after := c'; frames_served := i |}
      | (inr response_data, c') =>
          match frame response_data with
          | None =>
              {| ending := Some (LoopLeft (ConnectionError ResponseTooLong));
                 sent := out; core_after := c'; frames_served := i |}
          | Some f =>
              match drain (envs i) with
              | Drained => dispatch_all envs (S i) rest (out ++ f) c'
              | DrainRaised =>
                  {| ending := Some (LoopLeft (ConnectionError ConnectionLost));
                     sent := out ++ f; core_after := c'; frames_served := S i |}
              | DrainBlocked =>
                  {| ending := Some WaitsInDrain; sent := out ++ f;
                     core_after := c'; frames_served := S i |}
              end
          end
      end
  end.
End Connection.

(** The bytes on the wire for a sequence of messages. *)
Fixpoint wire (bodies : list (list byte)) : list byte :=
  match bodies with
  | [] => []
  | b :: rest => default [] (frame b) ++ wire rest
  end.

(** ** The client's side of an exchange, and the shell that uses it *)

Section Client.
(** [json.loads(response_data.decode())]; [None] when either raises. *)
Variable json_loads : list byte → option pyval.
(** [json.dumps(request).encode()] on a payload of JSON values. *)
Variable json_dumps_request : gmap string pyval → list byte.

(** [KalpanaIPCClient.send_request] for one exchange.  [connect_ok] tells
    whether a connection can be opened when there is none; [peer] is the
    other end: from the bytes written to the stream of its answer;
    [error_text] is the text of the exception, should one be raised.  The
    result is the dictionary returned, and whether the client now counts
    itself connected. *)
Definition send_request (connected connect_ok : bool) (peer : list byte → Reader)
    (error_text : string) (request : gmap string pyval) : pyval * bool :=
  if negb connected && negb connect_ok
  then (PDict [("error", PStr "Not connected to Kalpana Core")], false)
  else
    match frame (json_dumps_request request) with
    | None => (PDict [("error", PStr error_text)], true)
    | Some f =>
        match read_frame (peer f) with
        | (FrameEof, _) => (PDict [("error", PStr "Connection closed")], true)
        | (FrameBadHeader _, _) => (PDict [("error", PStr error_text)], true)
        | (FrameBody _ response_data, _) =>
            match json_loads response_data with
            | None => (PDict [("error", PStr error_text)], true)
            | Some response => (response, true)
            end
        end
    end.
End Client.

(** The environment of a turn whose peer stays connected and reads the
    response: the drain returns. *)
Definition with_reading_peer (env : FrameEnv) : FrameEnv :=
  {| call_env := call_env env; drain := Drained;
     delivered_while_draining := delivered_while_draining env |}.

(** The authority as the peer of one exchange on a fresh connection, seen
    from a client that has written its request and now reads, as
    [send_request] does: the authority serves the frame written, and its
    response reaches the client in one piece, so that its drain returns;
    when it leaves the loop without writing, the client finds the
    connection closed. *)
Definition core_peer (DEV_MODE : bool) (json_loads : list byte → option pyval)
    (json_dumps : IpcResponse → list byte) (env : FrameEnv) (c : KalpanaCore)
    (written : list byte) : Reader :=
  match serve_frame DEV_MODE json_loads json_dumps (with_reading_peer env)
          {| buffered := written; arriving := [] |} c with
  | Continue out _ _ => {| buffered := []; arriving := [out] |}
  | Stop _ _ _ | Lost _ _ _ | Stalled _ _ _ => {| buffered := []; arriving := [] |}
  end.

(** Python's truth value of a JSON value. *)
Definition truthy (v : pyval) : bool :=
  match v with
  | PNone => false
  | PBool b => b
  | PInt n => negb (n =? 0)%Z
  | PStr s => negb (bool_decide (s = ""))
  | PList l => negb (bool_decide (l = []))
  | PDict d => negb (bool_decide (d = []))
  end.

(** [s[n:]] on a string. *)
Fixpoint string_drop (n : nat) (s : string) : string :=
  match n, s with
  | O, _ => s
  | S n', String _ s' => string_drop n' s'
  | S _, EmptyString => EmptyString
  end.

Inductive Notice : Type :=
  | NoticeAudit       (* "Action logged for audit" *)
  | NoticeSandbox.    (* "Running in sandbox mode" *)

(** What [KalpanaShell.execute_command] does with a command line. *)
Inductive ShellAction : Type :=
  | Internal (command : string)       (* handle_internal_command(command) *)
  | ChangeDirectory (rest : string)   (* change_directory(rest.strip()) *)
  | ChangeToHome                      (* change_directory(expanduser("~")) *)
  | Blocked (reason : pyval)          (* the BLOCKED message, nothing is run *)
  | RunInShell (command : string) (notice : option Notice)
                                      (* subprocess.run(command, shell=True) *)
  | ShellCrash.                       (* AttributeError: the reply is no dict *)

(** [KalpanaShell.execute_command]; [ask_core] is [self.client.execute]. *)
Definition execute_command (connected : bool) (ask_core : string → pyval)
    (command : string) : ShellAction :=
  if String.prefix "." command then Internal command
  else if String.prefix "cd " command then ChangeDirectory (string_drop 3 command)
  else if bool_decide (command = "cd") then ChangeToHome
  else if connected then
    match ask_core command with
    | PDict d =>
        let response := dict_of_pairs d in
        if negb (truthy (dict_get response "allowed" (PBool false)))
        then Blocked (dict_get response "reason" (PStr "Policy denied"))
        else
          let decision := dict_get response "decision" (PStr "unknown") in
          RunInShell command
            (if py_eq_str decision "audit" then Some NoticeAudit
             else if py_eq_str decision "sandbox" then Some NoticeSandbox
             else None)
    | _ => ShellCrash
    end
  else RunInShell command None.

(** The members of the dictionary that [handle_execute] returns. *)
Definition execute_reply_members (r : ExecuteResponse) : list (string * pyval) :=
  [("request_id", PStr (er_request_id r)); ("decision", PStr (er_decision r));
   ("reason", PStr (er_reason r)); ("allowed", PBool (er_allowed r))].

(** ** Sample messages

    The JSON texts of a few messages, and a codec that knows just these. *)

Global Instance byte_eq_decision : EqDecision byte := Byte.byte_eq_dec.

Definition bytes_of (s : string) : list byte := String.list_byte_of_string s.

(** A JSON string literal without escapes. *)
Definition quoted (s : string) : string :=
  String "034"%char (s +:+ String "034"%char "").

Definition command_text (cmd : string) : list byte :=
  bytes_of ("{" +:+ quoted "command" +:+ ": " +:+ quoted cmd +:+ "}").

(** The text of the dictionary that [handle_execute] returns. *)
Definition execute_reply_text (r : ExecuteResponse) : list byte :=
  bytes_of ("{" +:+ quoted "request_id" +:+ ": " +:+ quoted (er_request_id r) +:+ ", " +:+
            quoted "decision" +:+ ": " +:+ quoted (er_decision r) +:+ ", " +:+
            quoted "reason" +:+ ": " +:+ quoted (er_reason r) +:+ ", " +:+
            quoted "allowed" +:+ ": " +:+
            (if er_allowed r then "true" else "false") +:+ "}").

Definition ls_request_text : list byte :=
  bytes_of ("{" +:+ quoted "command" +:+ ": " +:+ quoted "execute" +:+ ", " +:+
            quoted "cmd" +:+ ": " +:+ quoted "ls -la" +:+ ", " +:+
            quoted "args" +:+ ": {}, " +:+ quoted "pid" +:+ ": 4242, " +:+
            quoted "uid" +:+ ": 1000, " +:+
            quoted "process" +:+ ": " +:+ quoted "kalpana-shell" +:+ "}").

Definition ls_request_members : list (string * pyval) :=
  [("command", PStr "execute"); ("cmd", PStr "ls -la"); ("args", PDict []);
   ("pid", PInt 4242); ("uid", PInt 1000); ("process", PStr "kalpana-shell")].

Definition ls_reply : ExecuteResponse :=
  {| er_request_id := "REQ-20240309070500-000001"; er_decision := "allow";
     er_reason := "Trusted process: kalpana-shell"; er_allowed := true |}.

Definition audit_limit_text : list byte :=
  bytes_of ("{" +:+ quoted "command" +:+ ": " +:+ quoted "audit" +:+ ", " +:+
            quoted "limit" +:+ ": 10}").

Definition audit_limit_members : list (string * pyval) :=
  [("command", PStr "audit"); ("limit", PInt 10)].

Definition sample_loads (msg_data : list byte) : option pyval :=
  if decide (msg_data = command_text "audit")
  then Some (PDict [("command", PStr "audit")])
  else if decide (msg_data = command_text "reboot")
  then Some (PDict [("command", PStr "reboot")])
  else if decide (msg_data = command_text "status")
  then Some (PDict [("command", PStr "status")])
  else if decide (msg_data = ls_request_text)
  then Some (PDict ls_request_members)
  else if decide (msg_data = execute_reply_text ls_reply)
  then Some (PDict (execute_reply_members ls_reply))
  else if decide (msg_data = audit_limit_text)
  then Some (PDict audit_limit_members)
  else if decide (msg_data = bytes_of "[]")
  then Some (PList [])
  else None.

Definition sample_dumps (response : IpcResponse) : list byte :=
  match response with
  | ExecuteReply r => execute_reply_text r
  | ErrorReply (PStr cmd) =>
      bytes_of ("{" +:+ quoted "error" +:+ ": " +:+
                quoted ("Unknown command: " +:+ cmd) +:+ "}")
  | AuditReply [] => bytes_of ("{" +:+ quoted "entries" +:+ ": []}")
  | _ => bytes_of "{}"
  end.

Definition sample_dumps_request (request : gmap string pyval) : list byte :=
  match request !! "cmd", request !! "limit", request !! "command" with
  | Some (PStr cmd), _, _ =>
      if bool_decide (cmd = "ls -la") then ls_request_text else bytes_of "{}"
  | _, Some _, _ => audit_limit_text
  | _, _, Some (PStr cmd) => command_text cmd
  | _, _, _ => bytes_of "{}"
  end.

Definition quiet_envs (i : nat) : FrameEnv :=
  {| call_env := sample_env; drain := Drained; delivered_while_draining := 0 |}.

Definition disk_full_env : FrameEnv :=
  {| call_env := sample_env_disk_full; drain := Drained; delivered_while_draining := 0 |}.

(** A peer that sends its requests and closes its end at once: the first
    drain finds the connection lost. *)
Definition peer_gone_envs (i : nat) : FrameEnv :=
  {| call_env := sample_env; drain := DrainRaised; delivered_while_draining := 0 |}.

(** A peer that sends its requests and never reads: the third drain finds
    the write buffer full. *)
Definition peer_not_reading_envs (i : nat) : FrameEnv :=
  {| call_env := sample_env;
     drain := if (i <? 2)%nat then Drained else DrainBlocked;
     delivered_while_draining := 0 |}.

(** The identifiers of the audit entries are made from these clock
    readings and counter values, each counter value larger than the one
    before and none beyond the request counter. *)
Definition ids_made_from (c : KalpanaCore) (made : list (datetime * N)) : Prop :=
  map (fun e => id (request e)) (entries (audit c))
  = map (fun p => format_request_id p.1 p.2) made ∧
  Forall (fun p => datetime_wf p.1 ∧ (p.2 ≤ request_counter c)%N) made ∧
  StronglySorted (fun p q => (p.2 < q.2)%N) made.

(** A policy engine that, unlike [evaluate], looks at the target of every
    request, whatever its kind: it refuses any target that mentions "/boot"
    or that is no string, and otherwise decides as [evaluate] does. *)
Definition evaluate_by_target : EvaluateMethod := fun pe req =>
  match target req with
  | PStr t =>
      if str_contains "/boot" t
      then Ok (mkResponse (id req) DENY "Target refused")
      else evaluate pe req
  | _ => Ok (mkResponse (id req) DENY "Target refused")
  end.

(** ** Proof automation *)

(** Name the quotient and the last digit of [a], for [lia]. *)
Ltac split_last_digit a :=
  let q := fresh "q" in
  let r := fresh "r" in
  pose proof (N.div_mod' a 10);
  pose proof (N.mod_lt a 10 ltac:(lia));
  remember (a / 10)%N as q;
  remember (a mod 10)%N as r.

(** * Properties *)

(** ** The model on the documented scenarios *)

Example format_0d_examples :
  format_0d 6 1 = "000001" ∧ format_0d 6 999999 = "999999" ∧
  format_0d 6 1000000 = "1000000" ∧ format_0d 2 0 = "00" ∧
  format_0d 6 123456789 = "123456789".
Proof. vm_compute. repeat split. Qed.

Example format_request_id_example :
  format_request_id sample_time 42 = "REQ-20240309070500-000042".
Proof. vm_compute. reflexivity. Qed.

Example scenario_protected_write :
  evaluate default_policy
    (sample_request "unknown-script" FILE_WRITE "/kalpana/core/config")
  = Ok (mkResponse "REQ-20240309070500-000001" DENY
          "Protected system path - modification forbidden").
Proof. vm_compute. reflexivity. Qed.

Example scenario_trusted_write :
  evaluate default_policy (sample_request "kalpana-shell" FILE_WRITE "/tmp/note.txt")
  = Ok (mkResponse "REQ-20240309070500-000001" ALLOW
          "Trusted process: kalpana-shell").
Proof. vm_compute. reflexivity. Qed.

Example scenario_network :
  evaluate default_policy (sample_request "unknown-script" NETWORK_CONNECT "1.2.3.4:443")
  = Ok (mkResponse "REQ-20240309070500-000001" AUDIT
          "Network action logged for review").
Proof. vm_compute. reflexivity. Qed.

Example scenario_privilege :
  evaluate default_policy (sample_request "unknown-script" PRIVILEGE_ESCALATE "root")
  = Ok (mkResponse "REQ-20240309070500-000001" DENY
          "Privilege escalation requires Kalpana approval").
Proof. vm_compute. reflexivity. Qed.

Example scenario_package :
  evaluate default_policy (sample_request "unknown-script" PACKAGE_INSTALL "vim")
  = Ok (mkResponse "REQ-20240309070500-000001" SANDBOX
          "Unknown action sandboxed by default").
Proof. vm_compute. reflexivity. Qed.

(** A requester name that is a JSON array cannot be hashed. *)
Example evaluate_unhashable_name :
  evaluate default_policy
    {| id := "r"; action_type := SYSTEM_COMMAND; requestor_pid := PInt 0;
       requestor_uid := PInt 0; requestor_name := PList [];
       target := PStr "execute"; parameters := PDict [];
       timestamp := sample_time |}
  = Raise TypeError.
Proof. vm_compute. reflexivity. Qed.

(** ** Policy engine *)

Lemma py_any_total {A} (g : A → bool) (xs : list A) :
  py_any (fun x => Ok (g x)) xs = Ok (existsb g xs).
Proof.
  induction xs as [|x xs IH]; simpl; [reflexivity|].
  destruct (g x); simpl; [reflexivity | exact IH].
Qed.

Lemma targets_blocked_str pe req t :
  target req = PStr t →
  targets_blocked pe req
  = Ok (existsb (fun b => str_contains b t) (elements (blocked_paths pe))).
Proof.
  intros Ht. unfold targets_blocked. rewrite Ht. simpl.
  apply (py_any_total (fun b => str_contains b t)).
Qed.

Lemma target_protected_existsb pe req t :
  target req = PStr t →
  existsb (fun b => str_contains b t) (elements (blocked_paths pe)) = true
  ↔ target_protected pe req.
Proof.
  intros Ht. rewrite existsb_exists. split.
  - intros (b & Hin & Hc). exists t, b. repeat split; try assumption.
    apply elem_of_elements, list_elem_of_In, Hin.
  - intros (t' & b & Ht' & Hin & Hc). rewrite Ht in Ht'. injection Ht' as <-.
    exists b. split; [|assumption].
    apply list_elem_of_In, elem_of_elements, Hin.
Qed.

Lemma is_modification_true req : is_modification (action_type req) = true ↔ modifies req.
Proof.
  unfold modifies. destruct (action_type req); simpl; split; intros H;
    try discriminate; try reflexivity; auto; destruct H; discriminate.
Qed.

Lemma is_network_true req : is_network (action_type req) = true ↔ uses_network req.
Proof.
  unfold uses_network. destruct (action_type req); simpl; split; intros H;
    try discriminate; try reflexivity; auto; destruct H; discriminate.
Qed.

(** Rule 1 fires exactly on a modification of a protected target. *)
Lemma evaluate_protected pe req :
  well_formed req → modifies req → target_protected pe req →
  evaluate pe req
  = Ok (mkResponse (id req) DENY "Protected system path - modification forbidden").
Proof.
  intros [_ [t Ht]] Hm Hp. unfold evaluate.
  apply is_modification_true in Hm. rewrite Hm.
  rewrite (targets_blocked_str _ _ _ Ht).
  apply (target_protected_existsb _ _ _ Ht) in Hp. rewrite Hp. reflexivity.
Qed.

(** When rule 1 does not fire, the trusted-process rule is consulted. *)
Lemma evaluate_unprotected pe req :
  well_formed req → ¬ (modifies req ∧ target_protected pe req) →
  evaluate pe req = trusted_rule pe req.
Proof.
  intros [_ [t Ht]] Hn. unfold evaluate.
  destruct (is_modification (action_type req)) eqn:Hm; [|reflexivity].
  rewrite (targets_blocked_str _ _ _ Ht).
  destruct (existsb _ _) eqn:He; [|reflexivity].
  exfalso. apply Hn. split.
  - apply is_modification_true, Hm.
  - apply (target_protected_existsb _ _ _ Ht), He.
Qed.

Lemma trusted_rule_trusted pe req n :
  requestor_name req = PStr n → n ∈ trusted_processes pe →
  trusted_rule pe req = Ok (mkResponse (id req) ALLOW ("Trusted process: " +:+ n)).
Proof.
  intros Hn Hin. unfold trusted_rule. rewrite Hn.
  rewrite bool_decide_eq_true_2 by assumption. reflexivity.
Qed.

Lemma trusted_rule_untrusted pe req :
  hashable (requestor_name req) = true → ¬ requester_trusted pe req →
  trusted_rule pe req = Ok (category_rules req).
Proof.
  intros Hh Hn. unfold trusted_rule.
  destruct (requestor_name req) as [| | |n| |] eqn:E; try reflexivity;
    try discriminate.
  rewrite bool_decide_eq_false_2; [reflexivity|].
  intros Hin. apply Hn. exists n. split; [assumption | exact Hin].
Qed.

Lemma well_formed_hashable req : well_formed req → hashable (requestor_name req) = true.
Proof. intros [[n Hn] _]. rewrite Hn. reflexivity. Qed.

Lemma protected_dec pe req :
  well_formed req →
  (modifies req ∧ target_protected pe req) ∨ ¬ (modifies req ∧ target_protected pe req).
Proof.
  intros [_ [t Ht]].
  destruct (is_modification (action_type req)) eqn:Hm.
  - destruct (existsb (fun b => str_contains b t) (elements (blocked_paths pe))) eqn:He.
    + left. split; [apply is_modification_true, Hm|].
      apply (target_protected_existsb _ _ _ Ht), He.
    + right. intros [_ Hp]. apply (target_protected_existsb _ _ _ Ht) in Hp.
      congruence.
  - right. intros [Hmod _]. apply is_modification_true in Hmod. congruence.
Qed.

Lemma trusted_dec pe req : requester_trusted pe req ∨ ¬ requester_trusted pe req.
Proof.
  unfold requester_trusted.
  destruct (requestor_name req) as [| | |n| |];
    try (right; intros (n' & Hn' & _); discriminate).
  destruct (decide (n ∈ trusted_processes pe)) as [Hin|Hout].
  - left. exists n. split; [reflexivity | exact Hin].
  - right. intros (n' & Hn' & Hin). injection Hn' as ->. contradiction.
Qed.

Lemma category_rules_network req :
  uses_network req →
  category_rules req = mkResponse (id req) AUDIT "Network action logged for review".
Proof.
  intros H. apply is_network_true in H. unfold category_rules. rewrite H. reflexivity.
Qed.

Lemma category_rules_escalate req :
  action_type req = PRIVILEGE_ESCALATE →
  category_rules req
  = mkResponse (id req) DENY "Privilege escalation requires Kalpana approval".
Proof. intros H. unfold category_rules. rewrite H. reflexivity. Qed.

Lemma category_rules_default req :
  ¬ uses_network req → action_type req ≠ PRIVILEGE_ESCALATE →
  category_rules req = mkResponse (id req) SANDBOX "Unknown action sandboxed by default".
Proof.
  intros Hn He. unfold category_rules.
  destruct (is_network (action_type req)) eqn:E.
  - exfalso. apply Hn, is_network_true, E.
  - rewrite bool_decide_eq_false_2 by assumption. reflexivity.
Qed.

Lemma uses_network_dec req : uses_network req ∨ ¬ uses_network req.
Proof.
  destruct (is_network (action_type req)) eqn:E.
  - left. apply is_network_true, E.
  - right. intros H. apply is_network_true in H. congruence.
Qed.

Lemma uses_network_not_escalate req :
  uses_network req → action_type req ≠ PRIVILEGE_ESCALATE.
Proof. intros [H|H]; rewrite H; discriminate. Qed.

(** C1 (as the code has it): on a well-formed request [evaluate] returns one
    response, chosen by the first of five rules that matches: a write or
    delete whose target contains a protected path is denied with reason
    "Protected system path - modification forbidden"; otherwise a trusted
    requester is allowed with reason "Trusted process: <name>"; otherwise a
    network connect or listen is audited with reason "Network action logged
    for review"; otherwise a privilege escalation is denied with reason
    "Privilege escalation requires Kalpana approval"; otherwise the request
    is sandboxed with reason "Unknown action sandboxed by default". *)
Theorem evaluate_first_match (pe : PolicyEngine) (req : ActionRequest) :
  well_formed req →
  ∃ resp, evaluate pe req = Ok resp ∧ request_id resp = id req ∧
    let protected := modifies req ∧ target_protected pe req in
    let trusted := requester_trusted pe req in
    let escalates := action_type req = PRIVILEGE_ESCALATE in
    (protected →
       decision resp = DENY ∧
       reason resp = "Protected system path - modification forbidden") ∧
    (¬ protected → trusted →
       decision resp = ALLOW ∧
       ∃ n, requestor_name req = PStr n ∧ reason resp = "Trusted process: " +:+ n) ∧
    (¬ protected → ¬ trusted → uses_network req →
       decision resp = AUDIT ∧ reason resp = "Network action logged for review") ∧
    (¬ protected → ¬ trusted → ¬ uses_network req → escalates →
       decision resp = DENY ∧
       reason resp = "Privilege escalation requires Kalpana approval") ∧
    (¬ protected → ¬ trusted → ¬ uses_network req → ¬ escalates →
       decision resp = SANDBOX ∧
       reason resp = "Unknown action sandboxed by default").
Proof.
  intros Hwf.
  destruct (protected_dec pe req Hwf) as [Hp | Hp].
  { destruct Hp as [Hm Ht].
    eexists. split; [apply evaluate_protected; assumption|].
    split; [reflexivity|]. simpl. repeat split; intros; tauto. }
  rewrite (evaluate_unprotected pe req Hwf Hp).
  destruct (trusted_dec pe req) as [Htr | Htr].
  { destruct Htr as (n & Hn & Hin).
    eexists. split; [apply (trusted_rule_trusted pe req n Hn Hin)|].
    split; [reflexivity|]. simpl.
    assert (requester_trusted pe req) by (exists n; auto).
    repeat split; intros; try tauto. exists n. auto. }
  rewrite (trusted_rule_untrusted pe req (well_formed_hashable req Hwf) Htr).
  destruct (uses_network_dec req) as [Hnet | Hnet].
  { rewrite (category_rules_network req Hnet).
    pose proof (uses_network_not_escalate req Hnet).
    eexists. split; [reflexivity|]. split; [reflexivity|]. simpl.
    repeat split; intros; tauto. }
  destruct (decide (action_type req = PRIVILEGE_ESCALATE)) as [Hesc | Hesc].
  { rewrite (category_rules_escalate req Hesc).
    eexists. split; [reflexivity|]. split; [reflexivity|]. simpl.
    repeat split; intros; tauto. }
  rewrite (category_rules_default req Hnet Hesc).
  eexists. split; [reflexivity|]. split; [reflexivity|]. simpl.
  repeat split; intros; tauto.
Qed.

Lemma evaluate_first_match_witness :
  well_formed (sample_request "unknown-script" NETWORK_LISTEN "0.0.0.0:80") ∧
  ∃ resp,
    evaluate default_policy (sample_request "unknown-script" NETWORK_LISTEN "0.0.0.0:80")
    = Ok resp ∧ decision resp = AUDIT.
Proof.
  assert (Hwf : well_formed (sample_request "unknown-script" NETWORK_LISTEN "0.0.0.0:80")).
  { split; eexists; reflexivity. }
  split; [exact Hwf|].
  destruct (evaluate_first_match default_policy _ Hwf) as (resp & He & _ & _).
  exists resp. split; [exact He|].
  vm_compute in He. injection He as <-. reflexivity.
Defined.

(** C1, as worded: the reasons returned are not the strings the claim
    quotes.  A write to a protected path by an unknown script is denied
    with another reason than "protected system path", and likewise for the
    network, escalation and default rules. *)
Lemma evaluate_reasons_differ :
  well_formed (sample_request "unknown-script" FILE_WRITE "/kalpana/core/config") ∧
  modifies (sample_request "unknown-script" FILE_WRITE "/kalpana/core/config") ∧
  target_protected default_policy
    (sample_request "unknown-script" FILE_WRITE "/kalpana/core/config") ∧
  (∃ resp,
     evaluate default_policy
       (sample_request "unknown-script" FILE_WRITE "/kalpana/core/config") = Ok resp ∧
     decision resp = DENY ∧ reason resp ≠ "protected system path") ∧
  (∃ resp,
     evaluate default_policy
       (sample_request "unknown-script" NETWORK_CONNECT "1.2.3.4:443") = Ok resp ∧
     decision resp = AUDIT ∧ reason resp ≠ "network action logged for review") ∧
  (∃ resp,
     evaluate default_policy
       (sample_request "unknown-script" PRIVILEGE_ESCALATE "root") = Ok resp ∧
     decision resp = DENY ∧
     reason resp ≠ "privilege escalation requires authority approval") ∧
  (∃ resp,
     evaluate default_policy
       (sample_request "unknown-script" PACKAGE_INSTALL "vim") = Ok resp ∧
     decision resp = SANDBOX ∧ reason resp ≠ "unknown action sandboxed by default").
Proof.
  split; [split; eexists; reflexivity|].
  split; [left; reflexivity|].
  split.
  { exists "/kalpana/core/config", "/kalpana/core".
    split; [reflexivity|]. split; [|reflexivity].
    unfold default_policy, PolicyEngine_init. simpl. set_solver. }
  repeat split; eexists; (split; [vm_compute; reflexivity|]);
    (split; [reflexivity | discriminate]).
Qed.

(** C2: a file write or file delete whose target matches an entry of the
    protected-path set is denied even when the requester process name is in
    the trusted-process set: the protected-path rule outranks the
    trusted-process rule. *)
Theorem protected_outranks_trusted (pe : PolicyEngine) (req : ActionRequest) :
  modifies req → target_protected pe req → requester_trusted pe req →
  ∃ resp, evaluate pe req = Ok resp ∧ decision resp = DENY.
Proof.
  intros Hm Hp (n & Hn & _).
  assert (Hwf : well_formed req).
  { split; [exists n; exact Hn|]. destruct Hp as (t & _ & Ht & _). exists t. exact Ht. }
  eexists. split; [apply evaluate_protected; assumption | reflexivity].
Qed.

Lemma sample_boot_protected name kind :
  target_protected default_policy (sample_request name kind "/boot/vmlinuz").
Proof.
  exists "/boot/vmlinuz", "/boot". split; [reflexivity|]. split; [|reflexivity].
  unfold default_policy, PolicyEngine_init. simpl. set_solver.
Qed.

Lemma sample_systemd_trusted kind tgt :
  requester_trusted default_policy (sample_request "systemd" kind tgt).
Proof.
  exists "systemd". split; [reflexivity|].
  unfold default_policy, PolicyEngine_init. simpl. set_solver.
Qed.

Lemma protected_outranks_trusted_witness :
  ∃ resp,
    evaluate default_policy (sample_request "systemd" FILE_DELETE "/boot/vmlinuz")
    = Ok resp ∧ decision resp = DENY.
Proof.
  apply (protected_outranks_trusted default_policy
           (sample_request "systemd" FILE_DELETE "/boot/vmlinuz")).
  - right. reflexivity.
  - apply sample_boot_protected.
  - apply sample_systemd_trusted.
Defined.

(** C3, as worded: a trusted process that only reads a protected path is
    allowed. *)
Lemma protected_read_allowed :
  target_protected default_policy (sample_request "systemd" FILE_READ "/boot/vmlinuz") ∧
  ∃ resp,
    evaluate default_policy (sample_request "systemd" FILE_READ "/boot/vmlinuz")
    = Ok resp ∧ decision resp = ALLOW.
Proof.
  split; [apply sample_boot_protected|].
  eexists. split; [vm_compute; reflexivity | reflexivity].
Qed.

(** C3 (as the code has it): on a request whose target is a protected path,
    [evaluate] returns ALLOW only when the action kind is neither file write
    nor file delete, and then exactly when the requester process name is in
    the trusted-process set; a write or a delete is never allowed, whoever
    asks. *)
Theorem protected_target_allow_iff (pe : PolicyEngine) (req : ActionRequest)
    (resp : ActionResponse) :
  target_protected pe req → evaluate pe req = Ok resp →
  (decision resp = ALLOW ↔ ¬ modifies req ∧ requester_trusted pe req).
Proof.
  intros Hp He.
  assert (Ht : ∃ t, target req = PStr t).
  { destruct Hp as (t & _ & Ht & _). exists t. exact Ht. }
  destruct Ht as [t Ht].
  unfold evaluate in He.
  destruct (is_modification (action_type req)) eqn:Hm.
  - rewrite (targets_blocked_str _ _ _ Ht) in He.
    apply (target_protected_existsb _ _ _ Ht) in Hp. rewrite Hp in He.
    injection He as <-. simpl. split; [discriminate|].
    intros [Hn _]. exfalso. apply Hn, is_modification_true, Hm.
  - assert (Hnm : ¬ modifies req).
    { intros H. apply is_modification_true in H. congruence. }
    destruct (trusted_dec pe req) as [Htr | Htr].
    + destruct Htr as (n & Hn & Hin).
      rewrite (trusted_rule_trusted pe req n Hn Hin) in He.
      injection He as <-. simpl. split; [|reflexivity].
      intros _. split; [exact Hnm|]. exists n. auto.
    + split; [|tauto]. intros Hd. exfalso.
      unfold trusted_rule in He.
      destruct (requestor_name req) as [| | |n| |] eqn:E; try discriminate;
        try (injection He as <-; unfold category_rules in Hd;
             repeat case_match; discriminate).
      destruct (bool_decide (n ∈ trusted_processes pe)) eqn:B.
      * apply Htr. exists n. split; [exact E|].
        apply bool_decide_eq_true in B. exact B.
      * injection He as <-. unfold category_rules in Hd.
        repeat case_match; discriminate.
Qed.

Lemma protected_target_allow_iff_witness :
  decision (mkResponse "REQ-20240309070500-000001" DENY
              "Protected system path - modification forbidden") = ALLOW
  ↔ ¬ modifies (sample_request "systemd" FILE_WRITE "/boot/vmlinuz") ∧
    requester_trusted default_policy (sample_request "systemd" FILE_WRITE "/boot/vmlinuz").
Proof.
  apply (protected_target_allow_iff default_policy
           (sample_request "systemd" FILE_WRITE "/boot/vmlinuz")).
  - apply sample_boot_protected.
  - vm_compute. reflexivity.
Defined.

(** ** The execute path *)

(** [handle_execute], step by step: the counter moves first; a failure of
    the evaluation leaves only that; otherwise the decision is remembered
    and the entry appended, and the state of the disk decides whether the
    call returns or raises. *)
Lemma handle_execute_with_unfold evaluate_method env request c :
  let n := (request_counter c + 1)%N in
  let c1 := set_request_counter n c in
  let ar := action_request_of (format_request_id (now_id env) n) (now_request env) request in
  handle_execute_with evaluate_method env request c =
    match evaluate_method (policy c) ar with
    | Raise e => (Raise e, c1)
    | Ok resp =>
        let entry := audit_entry_of (now_entry env) ar resp in
        let c2 := set_last_decision (Some resp) c1 in
        if disk_ok env then
          (Ok (execute_response_of resp),
           set_audit {| entries := entries (audit c) ++ [entry];
                        log_file := log_file (audit c) ++ [log_line_of entry] |} c2)
        else
          (Raise OSError,
           set_audit {| entries := entries (audit c) ++ [entry];
                        log_file := log_file (audit c) |} c2)
    end.
Proof.
  intros n c1 ar. unfold handle_execute_with, _generate_request_id, bind, modify, gets,
    ret, lift_result, zoom, log, raise. simpl.
  fold n. fold ar.
  destruct (evaluate_method (policy c) ar) as [resp|e]; [|reflexivity].
  destruct (disk_ok env); reflexivity.
Qed.

Lemma handle_execute_unfold env request c :
  let n := (request_counter c + 1)%N in
  let c1 := set_request_counter n c in
  let ar := action_request_of (format_request_id (now_id env) n) (now_request env) request in
  handle_execute env request c =
    match evaluate (policy c) ar with
    | Raise e => (Raise e, c1)
    | Ok resp =>
        let entry := audit_entry_of (now_entry env) ar resp in
        let c2 := set_last_decision (Some resp) c1 in
        if disk_ok env then
          (Ok (execute_response_of resp),
           set_audit {| entries := entries (audit c) ++ [entry];
                        log_file := log_file (audit c) ++ [log_line_of entry] |} c2)
        else
          (Raise OSError,
           set_audit {| entries := entries (audit c) ++ [entry];
                        log_file := log_file (audit c) |} c2)
    end.
Proof. apply handle_execute_with_unfold. Qed.

Lemma process_request_with_execute DEV_MODE evaluate_method env request c :
  routes_to_execute request →
  process_request_with DEV_MODE evaluate_method env request c
  = match handle_execute_with evaluate_method env request c with
    | (Ok r, c') => (Ok (ExecuteReply r), c')
    | (Raise e, c') => (Raise e, c')
    end.
Proof.
  unfold routes_to_execute, process_request_with. intros ->.
  unfold bind, ret.
  destruct (handle_execute_with evaluate_method env request c) as [[r|e] c']; reflexivity.
Qed.

Lemma process_request_execute DEV_MODE env request c :
  routes_to_execute request →
  process_request DEV_MODE env request c
  = match handle_execute env request c with
    | (Ok r, c') => (Ok (ExecuteReply r), c')
    | (Raise e, c') => (Raise e, c')
    end.
Proof. apply process_request_with_execute. Qed.

Lemma routes_to_execute_command request :
  routes_to_execute request → request !! "command" = Some (PStr "execute").
Proof.
  unfold routes_to_execute, dict_get, py_eq_str.
  destruct (request !! "command") as [v|]; simpl; [|discriminate].
  destruct v; try discriminate.
  intros H. apply bool_decide_eq_true in H. subst. reflexivity.
Qed.

(** C4: a payload that the dispatcher routes to the execute path has
    "execute" in its "command" field, and [handle_execute] reads the target
    from that same field.  The dispatcher and [handle_execute] are their
    bodies at the method [evaluate]; and whatever the method of the policy
    engine does with a request, the request it is handed on the execute
    path is the one written out below, whose target is the literal
    "execute": the outcome of the call is the engine's answer to that
    request, and the entry logged holds that request.  The command string
    that the client library sends travels under the key "cmd", which is
    never read: two payloads of the library that differ in it alone are
    served alike, so the command reaches no policy engine, as the target or
    otherwise. *)
Theorem execute_target_is_command_word (DEV_MODE : bool)
    (evaluate_method : EvaluateMethod) (env : CallEnv)
    (payload : gmap string pyval) (c : KalpanaCore) :
  routes_to_execute payload →
  let handed :=
    {| id := format_request_id (now_id env) (request_counter c + 1);
       action_type := SYSTEM_COMMAND;
       requestor_pid := dict_get payload "pid" (PInt 0);
       requestor_uid := dict_get payload "uid" (PInt 0);
       requestor_name := dict_get payload "process" (PStr "unknown");
       target := PStr "execute";
       parameters := dict_get payload "args" (PDict []);
       timestamp := now_request env |} in
  process_request DEV_MODE env payload c
  = process_request_with DEV_MODE evaluate env payload c ∧
  handle_execute env payload c = handle_execute_with evaluate env payload c ∧
  (process_request_with DEV_MODE evaluate_method env payload c).1
  = match evaluate_method (policy c) handed with
    | Raise e => Raise e
    | Ok response =>
        if disk_ok env then Ok (ExecuteReply (execute_response_of response))
        else Raise OSError
    end ∧
  (∀ response,
     evaluate_method (policy c) handed = Ok response →
     entries (audit (process_request_with DEV_MODE evaluate_method env payload c).2)
     = entries (audit c) ++ [audit_entry_of (now_entry env) handed response]) ∧
  (∀ command args pid uid,
     payload = client_execute command args pid uid →
     payload !! "cmd" = Some (PStr command) ∧
     ∀ command',
       process_request_with DEV_MODE evaluate_method env
         (client_execute command' args pid uid) c
       = process_request_with DEV_MODE evaluate_method env payload c).
Proof.
  intros Hr handed.
  assert (Hsame : ∀ p, routes_to_execute p →
            (∀ key, key ≠ "cmd" → p !! key = payload !! key) →
            action_request_of (format_request_id (now_id env) (request_counter c + 1))
              (now_request env) p = handed).
  { intros p Hp Hkeys. unfold action_request_of, handed, dict_get.
    rewrite (routes_to_execute_command p Hp).
    rewrite !Hkeys by discriminate. reflexivity. }
  assert (Hrun : ∀ p, routes_to_execute p →
            (∀ key, key ≠ "cmd" → p !! key = payload !! key) →
            process_request_with DEV_MODE evaluate_method env p c
            = match evaluate_method (policy c) handed with
              | Raise e => (Raise e, set_request_counter (request_counter c + 1) c)
              | Ok response =>
                  let entry := audit_entry_of (now_entry env) handed response in
                  let c2 := set_last_decision (Some response)
                              (set_request_counter (request_counter c + 1) c) in
                  if disk_ok env then
                    (Ok (ExecuteReply (execute_response_of response)),
                     set_audit {| entries := entries (audit c) ++ [entry];
                                  log_file := log_file (audit c) ++ [log_line_of entry] |}
                       c2)
                  else
                    (Raise OSError,
                     set_audit {| entries := entries (audit c) ++ [entry];
                                  log_file := log_file (audit c) |} c2)
              end).
  { intros p Hp Hkeys.
    rewrite (process_request_with_execute DEV_MODE evaluate_method env p c Hp).
    rewrite handle_execute_with_unfold. cbv zeta. rewrite (Hsame p Hp Hkeys).
    destruct (evaluate_method (policy c) handed) as [response|e]; [|reflexivity].
    destruct (disk_ok env); reflexivity. }
  split; [reflexivity|]. split; [reflexivity|]. split; [|split].
  - rewrite (Hrun payload Hr (fun _ _ => eq_refl)).
    destruct (evaluate_method (policy c) handed) as [response|e]; [|reflexivity].
    cbv zeta. destruct (disk_ok env); reflexivity.
  - intros response He. rewrite (Hrun payload Hr (fun _ _ => eq_refl)), He.
    cbv zeta. destruct (disk_ok env); reflexivity.
  - intros command args pid uid ->. split.
    + unfold client_execute. simplify_map_eq. reflexivity.
    + intros command'. rewrite (Hrun _ Hr (fun _ _ => eq_refl)).
      apply Hrun.
      * unfold routes_to_execute, dict_get, client_execute. simplify_map_eq. reflexivity.
      * intros key Hkey. unfold client_execute.
        destruct (decide (key = "command")) as [->|]; [simplify_map_eq; reflexivity|].
        rewrite !(lookup_insert_ne _ "command" key) by congruence.
        rewrite !(lookup_insert_ne _ "cmd" key) by congruence. reflexivity.
Qed.

Lemma client_execute_routes command args pid uid :
  routes_to_execute (client_execute command args pid uid).
Proof.
  unfold routes_to_execute, dict_get, client_execute. simplify_map_eq. reflexivity.
Qed.

Lemma execute_target_is_command_word_witness :
  process_request_with true evaluate_by_target sample_env
    (client_execute "ls" None 4242 1000) fresh_core
  = process_request_with true evaluate_by_target sample_env
      (client_execute "rm -rf /boot" None 4242 1000) fresh_core.
Proof.
  destruct (execute_target_is_command_word true evaluate_by_target sample_env
              (client_execute "rm -rf /boot" None 4242 1000) fresh_core
              (client_execute_routes "rm -rf /boot" None 4242 1000))
    as (_ & _ & _ & _ & Hcmd).
  destruct (Hcmd "rm -rf /boot" None 4242%Z 1000%Z eq_refl) as [_ Hsame].
  exact (Hsame "ls").
Defined.

(** The four decisions and the convenience flag of the reply. *)
Lemma execute_response_allowed resp :
  (er_allowed (execute_response_of resp) = true
   ↔ decision resp = ALLOW ∨ decision resp = AUDIT) ∧
  (er_allowed (execute_response_of resp) = false
   ↔ decision resp = DENY ∨ decision resp = SANDBOX).
Proof.
  unfold execute_response_of. simpl.
  destruct (decision resp); vm_compute; split; split; intros H;
    try discriminate; try reflexivity; auto;
    destruct H; discriminate.
Qed.

(** C5: in the response object returned by an execute call, [allowed] is
    true if and only if the decision is ALLOW or AUDIT, and false if and
    only if the decision is DENY or SANDBOX. *)
Theorem execute_allowed_iff (env : CallEnv) (payload : gmap string pyval)
    (c c' : KalpanaCore) (r : ExecuteResponse) :
  handle_execute env payload c = (Ok r, c') →
  ∃ resp, last_decision c' = Some resp ∧
    er_decision r = Decision_value (decision resp) ∧
    (er_allowed r = true ↔ decision resp = ALLOW ∨ decision resp = AUDIT) ∧
    (er_allowed r = false ↔ decision resp = DENY ∨ decision resp = SANDBOX).
Proof.
  rewrite handle_execute_unfold. simpl.
  destruct (evaluate _ _) as [resp|ex]; [|discriminate].
  destruct (disk_ok env); [|discriminate].
  intros H. injection H as <- <-. exists resp.
  split; [reflexivity|]. split; [reflexivity|].
  apply execute_response_allowed.
Qed.

Lemma execute_allowed_iff_witness :
  ∃ r c',
    handle_execute sample_env (client_execute "ls -la" None 4242 1000) fresh_core
    = (Ok r, c') ∧
    er_allowed r = true ∧
    ∃ resp, last_decision c' = Some resp ∧
      er_decision r = Decision_value (decision resp) ∧
      (er_allowed r = true ↔ decision resp = ALLOW ∨ decision resp = AUDIT) ∧
      (er_allowed r = false ↔ decision resp = DENY ∨ decision resp = SANDBOX).
Proof.
  destruct (handle_execute sample_env (client_execute "ls -la" None 4242 1000) fresh_core)
    as [res c'] eqn:E.
  assert (Hres : (handle_execute sample_env (client_execute "ls -la" None 4242 1000)
                    fresh_core).1
                 = Ok {| er_request_id := "REQ-20240309070500-000001";
                         er_decision := "allow";
                         er_reason := "Trusted process: kalpana-shell";
                         er_allowed := true |}).
  { vm_compute. reflexivity. }
  rewrite E in Hres. simpl in Hres. subst res.
  eexists _, c'. split; [reflexivity|]. split; [reflexivity|].
  exact (execute_allowed_iff _ _ _ _ _ E).
Defined.

(** ** Zero-padded numbers and their order *)

Lemma lex_eq c1 c2 : lex c1 c2 = Eq ↔ c1 = Eq ∧ c2 = Eq.
Proof. destruct c1, c2; simpl; split; intros H; try discriminate; auto; destruct H; discriminate. Qed.

Lemma string_compare_cons a b s t :
  String.compare (String a s) (String b t) = lex (Ascii.compare a b) (String.compare s t).
Proof. simpl. destruct (Ascii.compare a b); reflexivity. Qed.

Lemma ascii_compare_refl a : Ascii.compare a a = Eq.
Proof. unfold Ascii.compare. apply N.compare_refl. Qed.

Lemma string_compare_refl s : String.compare s s = Eq.
Proof.
  induction s as [|a s IH]; [reflexivity|].
  rewrite string_compare_cons, ascii_compare_refl. exact IH.
Qed.

(** Two strings that start with pieces of equal length compare by those
    pieces first. *)
Lemma string_compare_app a b c d :
  String.length a = String.length b →
  String.compare (a +:+ c) (b +:+ d) = lex (String.compare a b) (String.compare c d).
Proof.
  revert b. induction a as [|x a IH]; intros [|y b] Hlen; simpl in Hlen;
    try discriminate; [reflexivity|].
  injection Hlen as Hlen.
  change (String.compare (String x (a +:+ c)) (String y (b +:+ d))
          = lex (String.compare (String x a) (String y b)) (String.compare c d)).
  rewrite !string_compare_cons, (IH b Hlen).
  destruct (Ascii.compare x y); reflexivity.
Qed.

Lemma string_length_app a b :
  String.length (a +:+ b) = String.length a + String.length b.
Proof. induction a as [|x a IH]; simpl; [reflexivity | rewrite IH; reflexivity]. Qed.

Lemma fixed_digits_length w n : String.length (fixed_digits w n) = w.
Proof.
  revert n. induction w as [|w IH]; intros n; simpl; [reflexivity|].
  rewrite string_length_app, IH. simpl. lia.
Qed.

Lemma digit_char_compare x y :
  (x < 10)%N → (y < 10)%N →
  Ascii.compare (digit_char x) (digit_char y) = (x ?= y)%N.
Proof.
  intros Hx Hy. unfold Ascii.compare, digit_char.
  rewrite !N_ascii_embedding by lia.
  destruct (N.compare_spec x y) as [E|E|E].
  - apply N.compare_eq_iff. lia.
  - apply N.compare_lt_iff. lia.
  - apply N.compare_gt_iff. lia.
Qed.

Lemma compare_by_last_digit a b :
  lex (a / 10 ?= b / 10)%N (a mod 10 ?= b mod 10)%N = (a ?= b)%N.
Proof.
  split_last_digit a. split_last_digit b.
  destruct (N.compare_spec q q0) as [E|E|E]; simpl.
  - destruct (N.compare_spec r r0) as [F|F|F]; symmetry.
    + apply N.compare_eq_iff. lia.
    + apply N.compare_lt_iff. lia.
    + apply N.compare_gt_iff. lia.
  - symmetry. apply N.compare_lt_iff. lia.
  - symmetry. apply N.compare_gt_iff. lia.
Qed.

(** Numbers printed on the same width compare as strings the way they
    compare as numbers. *)
Lemma fixed_digits_compare w a b :
  (a < 10 ^ N.of_nat w)%N → (b < 10 ^ N.of_nat w)%N →
  String.compare (fixed_digits w a) (fixed_digits w b) = (a ?= b)%N.
Proof.
  revert a b. induction w as [|w IH]; intros a b Ha Hb.
  - simpl in *. assert (a = 0%N) by lia. assert (b = 0%N) by lia. subst. reflexivity.
  - rewrite Nat2N.inj_succ, N.pow_succ_r' in Ha, Hb.
    cbn [fixed_digits].
    rewrite string_compare_app by (rewrite !fixed_digits_length; reflexivity).
    rewrite IH.
    + rewrite string_compare_cons. simpl String.compare.
      rewrite digit_char_compare by (apply N.mod_lt; lia).
      replace (lex (a mod 10 ?= b mod 10)%N Eq) with (a mod 10 ?= b mod 10)%N
        by (destruct (a mod 10 ?= b mod 10)%N; reflexivity).
      apply compare_by_last_digit.
    + apply N.Div0.div_lt_upper_bound. lia.
    + apply N.Div0.div_lt_upper_bound. lia.
Qed.

Lemma ndigits_fuel_bound fuel n :
  (n < 2 ^ N.of_nat fuel)%N → (n < 10 ^ N.of_nat (ndigits_fuel fuel n))%N.
Proof.
  revert n. induction fuel as [|fuel IH]; intros n Hn.
  - simpl in *. lia.
  - cbn [ndigits_fuel]. destruct (N.ltb_spec n 10) as [Hlt|Hge].
    + simpl. lia.
    + rewrite Nat2N.inj_succ, N.pow_succ_r' in *.
      assert (Hq : (n / 10 < 2 ^ N.of_nat fuel)%N).
      { apply N.Div0.div_lt_upper_bound. lia. }
      specialize (IH _ Hq).
      split_last_digit n. lia.
Qed.

Lemma ndigits_bound n : (n < 10 ^ N.of_nat (ndigits n))%N.
Proof.
  apply ndigits_fuel_bound. rewrite N2Nat.id.
  destruct n as [|p]; [simpl; lia|]. apply N.size_gt.
Qed.

Lemma ndigits_fuel_le fuel n w :
  (n < 10 ^ N.of_nat (S w))%N → ndigits_fuel fuel n ≤ S w.
Proof.
  revert n w. induction fuel as [|fuel IH]; intros n w Hn; simpl; [lia|].
  destruct (N.ltb_spec n 10) as [Hlt|Hge]; [lia|].
  destruct w as [|w].
  - simpl in Hn. lia.
  - apply le_n_S, IH.
    rewrite Nat2N.inj_succ, N.pow_succ_r' in Hn.
    apply N.Div0.div_lt_upper_bound. lia.
Qed.

(** Below [10 ^ w] the padded format has exactly [w] characters. *)
Lemma format_0d_fixed w n :
  0 < w → (n < 10 ^ N.of_nat w)%N → format_0d w n = fixed_digits w n.
Proof.
  intros Hw Hn. unfold format_0d. f_equal.
  destruct w as [|w]; [lia|].
  pose proof (ndigits_fuel_le (N.to_nat (N.size n)) n w Hn). unfold ndigits. lia.
Qed.

Lemma format_0d_inj w a b : format_0d w a = format_0d w b → a = b.
Proof.
  unfold format_0d. intros H.
  pose proof (ndigits_bound a) as Ha. pose proof (ndigits_bound b) as Hb.
  assert (Hw : Nat.max w (ndigits a) = Nat.max w (ndigits b)).
  { apply (f_equal String.length) in H. rewrite !fixed_digits_length in H. exact H. }
  rewrite <- Hw in H.
  assert (Hc : String.compare (fixed_digits (Nat.max w (ndigits a)) a)
                 (fixed_digits (Nat.max w (ndigits a)) b) = Eq).
  { rewrite H. apply string_compare_refl. }
  rewrite fixed_digits_compare in Hc.
  - apply N.compare_eq_iff, Hc.
  - eapply N.lt_le_trans; [exact Ha|]. apply N.pow_le_mono_r; lia.
  - eapply N.lt_le_trans; [exact Hb|]. apply N.pow_le_mono_r; lia.
Qed.

(** ** Request identifiers *)

(** A year of four digits is printed with its four digits. *)
Lemma format_year y : (1000 ≤ y ≤ 9999)%N → format_0d 1 y = fixed_digits 4 y.
Proof.
  intros Hy. unfold format_0d. f_equal.
  assert (Hle : ndigits y ≤ 4).
  { apply ndigits_fuel_le. change (10 ^ N.of_nat 4)%N with 10000%N. lia. }
  pose proof (ndigits_bound y) as Hb.
  assert (Hge : 4 ≤ ndigits y).
  { destruct (le_lt_dec 4 (ndigits y)) as [H|H]; [exact H|]. exfalso.
    assert (Hp : (10 ^ N.of_nat (ndigits y) ≤ 10 ^ N.of_nat 3)%N)
      by (apply N.pow_le_mono_r; lia).
    change (10 ^ N.of_nat 3)%N with 1000%N in Hp. lia. }
  lia.
Qed.

Lemma strftime_compact_fixed t :
  datetime_wf t →
  strftime_compact t
  = fixed_digits 4 (year t) +:+ fixed_digits 2 (month t) +:+ fixed_digits 2 (day t) +:+
    fixed_digits 2 (hour t) +:+ fixed_digits 2 (minute t) +:+ fixed_digits 2 (second t).
Proof.
  intros (Hy & Hmo & Hd & Hh & Hmi & Hs). unfold strftime_compact.
  rewrite (format_year (year t) Hy).
  rewrite !format_0d_fixed; try lia; try reflexivity;
    match goal with
    | |- (_ < 10 ^ N.of_nat 2)%N => change (10 ^ N.of_nat 2)%N with 100%N; lia
    | |- (_ < 10 ^ N.of_nat 4)%N => change (10 ^ N.of_nat 4)%N with 10000%N; lia
    end.
Qed.

Lemma strftime_compact_length t : datetime_wf t → String.length (strftime_compact t) = 14.
Proof.
  intros Hwf. rewrite (strftime_compact_fixed t Hwf).
  rewrite !string_length_app, !fixed_digits_length. reflexivity.
Qed.

(** Timestamps compare as strings the way the readings compare in time. *)
Lemma strftime_compact_compare a b :
  datetime_wf a → datetime_wf b →
  String.compare (strftime_compact a) (strftime_compact b) = datetime_compare a b.
Proof.
  intros Ha Hb.
  rewrite (strftime_compact_fixed a Ha), (strftime_compact_fixed b Hb).
  destruct Ha as (Hy & Hmo & Hd & Hh & Hmi & Hs).
  destruct Hb as (Hy' & Hmo' & Hd' & Hh' & Hmi' & Hs').
  rewrite !string_compare_app by (rewrite !fixed_digits_length; reflexivity).
  rewrite !fixed_digits_compare;
    try (change (10 ^ N.of_nat 2)%N with 100%N; lia);
    try (change (10 ^ N.of_nat 4)%N with 10000%N; lia).
  reflexivity.
Qed.

Lemma format_request_id_compare a b n m :
  datetime_wf a → datetime_wf b →
  String.compare (format_request_id a n) (format_request_id b m)
  = lex (datetime_compare a b) (String.compare (format_0d 6 n) (format_0d 6 m)).
Proof.
  intros Ha Hb. unfold format_request_id.
  rewrite (string_compare_app "REQ-" "REQ-") by reflexivity.
  rewrite string_compare_refl. cbn [lex].
  rewrite string_compare_app by (rewrite !strftime_compact_length by assumption; reflexivity).
  rewrite strftime_compact_compare by assumption.
  rewrite (string_compare_app "-" "-") by reflexivity.
  rewrite string_compare_refl. reflexivity.
Qed.

(** An identifier determines the counter value it was made from. *)
Lemma format_request_id_inj a b n m :
  datetime_wf a → datetime_wf b →
  format_request_id a n = format_request_id b m → n = m.
Proof.
  intros Ha Hb H.
  assert (Hc : String.compare (format_request_id a n) (format_request_id b m) = Eq).
  { rewrite H. apply string_compare_refl. }
  rewrite format_request_id_compare in Hc by assumption.
  apply lex_eq in Hc. destruct Hc as [_ Hc].
  apply String.compare_eq_iff in Hc. apply (format_0d_inj 6), Hc.
Qed.

Lemma generate_ids_cons now rest c :
  generate_ids (now :: rest) c
  = format_request_id now (request_counter c + 1)
    :: generate_ids rest (set_request_counter (request_counter c + 1) c).
Proof. reflexivity. Qed.

Lemma generate_ids_app l1 l2 c :
  generate_ids (l1 ++ l2) c
  = generate_ids l1 c
    ++ generate_ids l2
         (set_request_counter (request_counter c + N.of_nat (length l1)) c).
Proof.
  revert c. induction l1 as [|now l1 IH]; intros c.
  - simpl. rewrite N.add_0_r. destruct c; reflexivity.
  - rewrite <- app_comm_cons, !generate_ids_cons, IH. simpl app. do 3 f_equal.
    unfold set_request_counter. simpl. f_equal. lia.
Qed.

(** Every identifier of a run is made from one of its clock readings and a
    counter value above the one the run started from. *)
Lemma generate_ids_elem clock c x :
  x ∈ generate_ids clock c →
  ∃ now n, now ∈ clock ∧
    (request_counter c < n ≤ request_counter c + N.of_nat (length clock))%N ∧
    x = format_request_id now n.
Proof.
  revert c. induction clock as [|t clock IH]; intros c Hx.
  - simpl in Hx. inversion Hx.
  - rewrite generate_ids_cons in Hx. apply elem_of_cons in Hx.
    destruct Hx as [-> | Hx].
    + exists t, (request_counter c + 1)%N. split; [left|]. split; [simpl; lia | reflexivity].
    + destruct (IH _ Hx) as (now & n & Hin & Hn & ->). simpl in Hn.
      exists now, n. split; [right; exact Hin|]. split; [simpl; lia | reflexivity].
Qed.

(** C6 (as the code has it): the identifiers generated in one run are
    pairwise distinct; they are lexicographically strictly increasing in
    generation order as long as the clock readings never go back and the
    counter stays below one million, the largest value that the six-digit
    field holds. *)
Theorem request_ids_distinct_and_ordered (clock : list datetime) (c : KalpanaCore) :
  Forall datetime_wf clock →
  NoDup (generate_ids clock c) ∧
  (StronglySorted datetime_le clock →
   (request_counter c + N.of_nat (length clock) < 1000000)%N →
   StronglySorted str_lt (generate_ids clock c)).
Proof.
  intros Hwf. split.
  - revert c. induction Hwf as [|t clock Ht Hwf IH]; intros c.
    + simpl. constructor.
    + rewrite generate_ids_cons. constructor; [|apply IH].
      intros Hin. apply generate_ids_elem in Hin.
      destruct Hin as (now & n & Hnow & Hn & Heq). simpl in Hn.
      rewrite Forall_forall in Hwf.
      apply format_request_id_inj in Heq; [lia | exact Ht | apply Hwf, Hnow].
  - intros Hsorted. revert c.
    induction Hsorted as [|t clock Hsorted IH Hle]; intros c Hc.
    + simpl. constructor.
    + apply Forall_cons in Hwf. destruct Hwf as [Ht Hwf]. simpl length in Hc.
      rewrite generate_ids_cons. constructor.
      * apply IH; [exact Hwf | simpl; lia].
      * apply Forall_forall. intros x Hin. apply generate_ids_elem in Hin.
        destruct Hin as (now & n & Hnow & Hn & ->). simpl in Hn.
        rewrite Forall_forall in Hwf, Hle.
        unfold str_lt. rewrite format_request_id_compare by auto.
        specialize (Hle _ Hnow). unfold datetime_le in Hle.
        rewrite !format_0d_fixed by
          (try lia; change (10 ^ N.of_nat 6)%N with 1000000%N; lia).
        rewrite fixed_digits_compare by
          (change (10 ^ N.of_nat 6)%N with 1000000%N; lia).
        assert (Hlt : (request_counter c + 1 ?= n)%N = Lt)
          by (apply N.compare_lt_iff; lia).
        rewrite Hlt. destruct (datetime_compare t now); [reflexivity.. | congruence].
Qed.

Lemma sample_time_wf : datetime_wf sample_time.
Proof. unfold datetime_wf. simpl. lia. Qed.

Lemma sample_time_later_wf : datetime_wf sample_time_later.
Proof. unfold datetime_wf. simpl. lia. Qed.

Lemma request_ids_distinct_and_ordered_witness :
  generate_ids [sample_time; sample_time; sample_time_later] fresh_core
  = ["REQ-20240309070500-000001"; "REQ-20240309070500-000002";
     "REQ-20240309070501-000003"] ∧
  NoDup (generate_ids [sample_time; sample_time; sample_time_later] fresh_core) ∧
  StronglySorted str_lt
    (generate_ids [sample_time; sample_time; sample_time_later] fresh_core).
Proof.
  split; [vm_compute; reflexivity|].
  assert (Hwf : Forall datetime_wf [sample_time; sample_time; sample_time_later]).
  { repeat constructor; simpl; lia. }
  destruct (request_ids_distinct_and_ordered
              [sample_time; sample_time; sample_time_later] fresh_core Hwf)
    as [Hnodup Hsorted].
  split; [exact Hnodup|]. apply Hsorted.
  - repeat constructor; unfold datetime_le; vm_compute; discriminate.
  - vm_compute. reflexivity.
Defined.

Lemma still_clock_sorted k : StronglySorted datetime_le (repeat sample_time k).
Proof.
  induction k as [|k IH]; simpl; constructor; [exact IH|].
  apply Forall_forall. intros t Ht. apply list_elem_of_In, repeat_spec in Ht. subst.
  unfold datetime_le. vm_compute. discriminate.
Qed.

Lemma datetime_compare_refl t : datetime_compare t t = Eq.
Proof. unfold datetime_compare. rewrite !N.compare_refl. reflexivity. Qed.

(** Whatever the clock did before, when calls number 999999 and 1000000
    fall in the same second the later identifier sorts before the earlier
    one. *)
Lemma millionth_id_sorts_back before t :
  length before = N.to_nat 999998 → datetime_wf t →
  generate_ids (before ++ [t; t]) fresh_core
  = generate_ids before fresh_core
    ++ [format_request_id t 999999; format_request_id t 1000000] ∧
  str_lt (format_request_id t 1000000) (format_request_id t 999999).
Proof.
  intros Hlen Ht. split.
  - rewrite generate_ids_app, Hlen, N2Nat.id. reflexivity.
  - unfold str_lt. rewrite format_request_id_compare by assumption.
    rewrite datetime_compare_refl. vm_compute. reflexivity.
Qed.

(** C6, as worded: a run of one million execute calls under a clock that
    stands still (so never goes back) ends with the identifiers numbered
    999999 and 1000000, and the second is lexicographically smaller than
    the first: the counter has outgrown its six digits.  And when the wall
    clock is set back between two calls, the second identifier is smaller
    than the first from the very start of a run. *)
Lemma request_ids_not_increasing :
  let clock := repeat sample_time (N.to_nat 1000000) in
  (Forall datetime_wf clock ∧
   StronglySorted datetime_le clock ∧
   (∃ before,
      generate_ids clock fresh_core
      = before ++ ["REQ-20240309070500-999999"; "REQ-20240309070500-1000000"]) ∧
   str_lt "REQ-20240309070500-1000000" "REQ-20240309070500-999999" ∧
   ¬ StronglySorted str_lt (generate_ids clock fresh_core)) ∧
  (generate_ids [sample_time_later; sample_time] fresh_core
   = ["REQ-20240309070501-000001"; "REQ-20240309070500-000002"] ∧
   str_lt "REQ-20240309070500-000002" "REQ-20240309070501-000001").
Proof.
  intros clock. split; [|split; vm_compute; reflexivity].
  assert (Hids : ∃ before,
     generate_ids clock fresh_core
     = before ++ ["REQ-20240309070500-999999"; "REQ-20240309070500-1000000"]).
  { unfold clock.
    replace (N.to_nat 1000000) with (N.to_nat 999998 + 2) by lia.
    rewrite repeat_app.
    destruct (millionth_id_sorts_back (repeat sample_time (N.to_nat 999998))
                sample_time (repeat_length _ _) sample_time_wf) as [Hgen _].
    exists (generate_ids (repeat sample_time (N.to_nat 999998)) fresh_core).
    exact Hgen. }
  split; [apply Forall_forall; intros t Ht; apply list_elem_of_In, repeat_spec in Ht;
          subst; apply sample_time_wf|].
  split; [apply still_clock_sorted|].
  split; [exact Hids|]. split; [vm_compute; reflexivity|].
  destruct Hids as [before ->]. intros Hs.
  apply StronglySorted_app_1_r in Hs.
  apply StronglySorted_inv in Hs. destruct Hs as [_ Hs].
  apply Forall_cons in Hs. destruct Hs as [Hs _].
  vm_compute in Hs. discriminate.
Qed.

(** ** Audit log *)


Lemma log_returns_iff disk_ok e a : (log disk_ok e a).1 = Ok tt ↔ disk_ok = true.
Proof.
  unfold log, bind, modify, raise. simpl.
  destruct disk_ok; simpl; split; intros H; try reflexivity; discriminate.
Qed.

(** [xs[-k:]] keeps the last [k] elements when [k] is positive. *)
Lemma py_slice_from_last {A} (k : Z) (xs : list A) :
  (0 < k)%Z → py_slice_from (- k) xs = drop (length xs - Z.to_nat k) xs.
Proof.
  intros Hk. unfold py_slice_from.
  destruct (Z.ltb_spec (- k) 0) as [_|Hge]; [|lia].
  f_equal. lia.
Qed.

(** [xs[-0:]] is [xs[0:]], the whole list. *)
Lemma py_slice_from_zero {A} (xs : list A) : py_slice_from (- 0) xs = xs.
Proof. reflexivity. Qed.



Lemma filter_filter_and {A} (P Q : A → Prop) `{∀ x, base.Decision (P x)}
    `{∀ x, base.Decision (Q x)} (R : A → Prop) `{∀ x, base.Decision (R x)} (l : list A) :
  (∀ x, R x ↔ P x ∧ Q x) → filter Q (filter P l) = filter R l.
Proof.
  intros HR. induction l as [|x l IH]; [reflexivity|].
  rewrite (filter_cons P), (filter_cons R).
  destruct (decide (P x)) as [HP|HP].
  - rewrite (filter_cons Q). destruct (decide (Q x)) as [HQ|HQ].
    + destruct (decide (R x)) as [_|HnR]; [rewrite IH; reflexivity|].
      exfalso. apply HnR, HR. auto.
    + destruct (decide (R x)) as [Hr|_]; [|exact IH].
      exfalso. apply HR in Hr. tauto.
  - destruct (decide (R x)) as [Hr|_]; [|exact IH].
    exfalso. apply HR in Hr. tauto.
Qed.

Lemma filter_all {A} (R : A → Prop) `{∀ x, base.Decision (R x)} (l : list A) :
  (∀ x, R x) → filter R l = l.
Proof.
  intros HR. induction l as [|x l IH]; [reflexivity|].
  rewrite filter_cons. destruct (decide (R x)) as [_|Hn]; [rewrite IH; reflexivity|].
  exfalso. apply Hn, HR.
Qed.

(** The two successive filters of [query] keep exactly the entries that
    pass all the filters given. *)
Lemma query_matching a k d limit :
  query a k d limit = py_slice_from (- limit) (matching a k d).
Proof.
  unfold query, matching. f_equal. destruct k as [k|], d as [d|].
  - apply filter_filter_and. intros e. unfold passes.
    rewrite andb_true_iff, !bool_decide_eq_true. reflexivity.
  - symmetry. apply list_filter_iff. intros e. unfold passes.
    rewrite andb_true_r, bool_decide_eq_true. reflexivity.
  - symmetry. apply list_filter_iff. intros e. unfold passes. simpl.
    rewrite bool_decide_eq_true. reflexivity.
  - symmetry. apply filter_all. reflexivity.
Qed.

(** A query with a positive limit returns the last [limit] matching entries,
    oldest first. *)
Lemma query_positive_limit a k d limit :
  (0 < limit)%Z →
  query a k d limit
  = drop (length (matching a k d) - Z.to_nat limit) (matching a k d) ∧
  length (query a k d limit) ≤ Z.to_nat limit.
Proof.
  intros Hl. rewrite query_matching, py_slice_from_last by assumption.
  split; [reflexivity|]. rewrite length_drop. lia.
Qed.


(** With limit zero the slice [results[-0:]] is the whole list. *)
Lemma query_limit_zero a k d : query a k d 0 = matching a k d.
Proof. rewrite query_matching. apply py_slice_from_zero. Qed.




(** The commands other than execute leave the whole state as it was. *)
Lemma process_request_read_only DEV_MODE env payload c :
  ¬ routes_to_execute payload → (process_request DEV_MODE env payload c).2 = c.
Proof.
  unfold routes_to_execute, process_request, process_request_with. intros Hn.
  destruct (py_eq_str (dict_get payload "command" PNone) "execute"); [congruence|].
  repeat (destruct (py_eq_str _ _); [reflexivity|]). reflexivity.
Qed.

Lemma routes_to_execute_dec payload : routes_to_execute payload ∨ ¬ routes_to_execute payload.
Proof.
  unfold routes_to_execute.
  destruct (py_eq_str _ _); [left; reflexivity | right; discriminate].
Qed.





Lemma matching_unfiltered a : matching a None None = entries a.
Proof. unfold matching. apply filter_all. reflexivity. Qed.





(** C8, at limit zero: the slice [results[-0:]] returns every matching
    entry, so a query limited to no entries at all returns the whole log. *)
Theorem query_limit_zero_returns_all :
  (∀ a k d, query a k d 0 = matching a k d) ∧
  length (entries (audit busy_core)) = 2 ∧
  query (audit busy_core) None None 0 = entries (audit busy_core) ∧
  ¬ length (query (audit busy_core) None None 0) ≤ 0.
Proof.
  split; [apply query_limit_zero|].
  split; [vm_compute; reflexivity|].
  split; [rewrite query_limit_zero; apply matching_unfiltered|].
  rewrite query_limit_zero, matching_unfiltered.
  assert (H : length (entries (audit busy_core)) = 2) by (vm_compute; reflexivity).
  rewrite H. lia.
Qed.

(** C9, when the log file cannot be written: [log] raises [OSError] to its
    caller after the in-memory append, and the execute call that logged
    raises with it instead of returning a response. *)
Theorem log_write_failure_raises :
  (∀ e a,
     log false e a
     = (Raise OSError, {| entries := entries a ++ [e]; log_file := log_file a |})) ∧
  (handle_execute sample_env_disk_full (client_execute "pwd" None 4242 1000) fresh_core).1
  = Raise OSError.
Proof. split; [reflexivity | vm_compute; reflexivity]. Qed.

(** C10, for a limit in the payload: the dispatcher never reads it and
    always asks for fifty entries; a client that asks for one entry of a
    log of two receives both. *)
Theorem audit_command_ignores_limit :
  (∀ DEV_MODE env limit c,
     process_request DEV_MODE env (client_get_audit_log limit) c
     = (Ok (AuditReply (query (audit c) None None 50)), c)) ∧
  (process_request true sample_env (client_get_audit_log 1) busy_core).1
  = Ok (AuditReply (entries (audit busy_core))) ∧
  length (entries (audit busy_core)) = 2.
Proof.
  split; [intros; reflexivity|].
  split; [|vm_compute; reflexivity].
  vm_compute. reflexivity.
Qed.

(** * Further properties of the policy engine *)

Lemma string_prefix_app s t :
  String.prefix s t = true ↔ ∃ post, t = s +:+ post.
Proof.
  revert t. induction s as [|a s IH]; intros t.
  - destruct t; simpl; split; intros _; try reflexivity; eexists; reflexivity.
  - destruct t as [|b t]; simpl.
    + split; [discriminate | intros [post H]; discriminate].
    + destruct (Ascii.ascii_dec a b) as [->|Hne].
      * rewrite IH. split; intros [post H]; exists post.
        -- rewrite H. reflexivity.
        -- injection H as H. exact H.
      * split; [discriminate|]. intros [post H]. injection H as H _. congruence.
Qed.

(** The substring test holds exactly when the needle occurs somewhere inside
    the text: at its start, in the middle or at its end. *)
Lemma str_contains_infix s t :
  str_contains s t = true ↔ ∃ pre post, t = pre +:+ s +:+ post.
Proof.
  induction t as [|b t IH].
  - cbn [str_contains]. rewrite orb_false_r, string_prefix_app. split.
    + intros [post H]. exists "", post. exact H.
    + intros (pre & post & H). destruct pre; [exists post; exact H | discriminate].
  - cbn [str_contains]. rewrite orb_true_iff, IH, string_prefix_app. split.
    + intros [[post H] | (pre & post & H)].
      * exists "", post. exact H.
      * exists (String b pre), post. rewrite H. reflexivity.
    + intros (pre & post & H). destruct pre as [|c pre].
      * left. exists post. exact H.
      * right. injection H as _ H. exists pre, post. exact H.
Qed.

(** X1: a file write or delete is denied as soon as a protected path
    occurs anywhere inside the target string, whoever asks: the requester
    name is not even looked at, so a name of any type does not matter. *)
Theorem protected_infix_denied (pe : PolicyEngine) (req : ActionRequest)
    (b pre post : string) :
  modifies req → b ∈ blocked_paths pe → target req = PStr (pre +:+ b +:+ post) →
  evaluate pe req
  = Ok (mkResponse (id req) DENY "Protected system path - modification forbidden").
Proof.
  intros Hm Hb Ht. unfold evaluate.
  apply is_modification_true in Hm. rewrite Hm.
  rewrite (targets_blocked_str _ _ _ Ht).
  assert (Hp : target_protected pe req).
  { exists (pre +:+ b +:+ post), b. repeat split; try assumption.
    apply str_contains_infix. exists pre, post. reflexivity. }
  apply (target_protected_existsb _ _ _ Ht) in Hp. rewrite Hp. reflexivity.
Qed.

Lemma targets_blocked_scalar pe req :
  is_scalar (target req) = true →
  targets_blocked pe req
  = if decide (blocked_paths pe = ∅) then Ok false else Raise TypeError.
Proof.
  intros Hs. unfold targets_blocked.
  destruct (decide (blocked_paths pe = ∅)) as [He|Hne].
  - rewrite He, elements_empty. reflexivity.
  - destruct (elements (blocked_paths pe)) as [|b bs] eqn:E.
    + exfalso. apply Hne. apply elements_empty_inv in E.
      apply leibniz_equiv_iff in E. exact E.
    + simpl. destruct (target req); try discriminate; reflexivity.
Qed.

Lemma targets_blocked_container pe req :
  is_scalar (target req) = false → ∃ found, targets_blocked pe req = Ok found.
Proof.
  intros Hs. unfold targets_blocked.
  destruct (target req) as [| | |t|l|d]; try discriminate; simpl.
  - eexists. apply (py_any_total (fun b => str_contains b t)).
  - eexists. apply (py_any_total (fun b => existsb (fun x => py_eq_str x b) l)).
  - eexists. apply (py_any_total
                      (fun b => existsb (fun kv => bool_decide (kv.1 = b)) d)).
Qed.

Lemma trusted_rule_raises pe req :
  trusted_rule pe req = Raise TypeError ↔ hashable (requestor_name req) = false.
Proof.
  unfold trusted_rule.
  destruct (requestor_name req); simpl; try (split; [discriminate|discriminate]);
    try (split; reflexivity).
  destruct (bool_decide _); split; discriminate.
Qed.

Lemma trusted_rule_only_type_error pe req e : trusted_rule pe req = Raise e → e = TypeError.
Proof.
  unfold trusted_rule.
  destruct (requestor_name req); try discriminate; try congruence.
  destruct (bool_decide _); discriminate.
Qed.

(** X2: [evaluate] fails in exactly two situations, both with [TypeError]:
    a write or delete whose target is no container (null, a boolean or a
    number) while the protected-path set is not empty; or a requester name
    that cannot be hashed (an array or an object) on a request that the
    protected-path rule has not already denied. *)
Theorem evaluate_raises_iff (pe : PolicyEngine) (req : ActionRequest) :
  (evaluate pe req = Raise TypeError ↔
     (modifies req ∧ is_scalar (target req) = true ∧ blocked_paths pe ≠ ∅) ∨
     (hashable (requestor_name req) = false ∧
      ¬ (modifies req ∧ targets_blocked pe req = Ok true))) ∧
  evaluate pe req ≠ Raise OSError.
Proof.
  unfold evaluate.
  destruct (is_modification (action_type req)) eqn:Hm.
  - assert (Hmod : modifies req) by (apply is_modification_true, Hm).
    destruct (is_scalar (target req)) eqn:Hs.
    + rewrite (targets_blocked_scalar pe req Hs).
      destruct (decide (blocked_paths pe = ∅)) as [He|Hne].
      * split.
        -- rewrite trusted_rule_raises. split.
           ++ intros Hh. right. split; [exact Hh|]. intros [_ H]. discriminate.
           ++ intros [(_ & _ & Hne) | [Hh _]]; [contradiction | exact Hh].
        -- intros H. apply trusted_rule_only_type_error in H. discriminate.
      * split; [|discriminate]. split; [|reflexivity].
        intros _. left. auto.
    + destruct (targets_blocked_container pe req Hs) as [found Hf]. rewrite Hf.
      destruct found.
      * split; [|discriminate]. split; [discriminate|].
        intros [(_ & H & _) | [_ H]]; [congruence|].
        exfalso. apply H. auto.
      * split.
        -- rewrite trusted_rule_raises. split.
           ++ intros Hh. right. split; [exact Hh|]. intros [_ H]. discriminate.
           ++ intros [(_ & H & _) | [Hh _]]; [congruence | exact Hh].
        -- intros H. apply trusted_rule_only_type_error in H. discriminate.
  - assert (Hmod : ¬ modifies req).
    { intros H. apply is_modification_true in H. congruence. }
    split.
    + rewrite trusted_rule_raises. split.
      * intros Hh. right. split; [exact Hh | tauto].
      * intros [(H & _) | [Hh _]]; [contradiction | exact Hh].
    + intros H. apply trusted_rule_only_type_error in H. discriminate.
Qed.

Lemma category_rules_not_allow req : decision (category_rules req) ≠ ALLOW.
Proof. unfold category_rules. repeat case_match; discriminate. Qed.

(** X3: whatever the types of the fields, [evaluate] returns ALLOW only to a
    requester whose name is a string of the trusted-process set, and then
    gives that name in the reason; every other outcome is a denial, an
    audit, a sandbox or an exception. *)
Theorem evaluate_allow_only_trusted (pe : PolicyEngine) (req : ActionRequest)
    (resp : ActionResponse) :
  evaluate pe req = Ok resp → decision resp = ALLOW →
  ∃ n, requestor_name req = PStr n ∧ n ∈ trusted_processes pe ∧
       reason resp = "Trusted process: " +:+ n.
Proof.
  intros He Hd.
  assert (Ht : trusted_rule pe req = Ok resp).
  { unfold evaluate in He. destruct (is_modification (action_type req)); [|exact He].
    destruct (targets_blocked pe req) as [[|]|]; try discriminate; [|exact He].
    injection He as <-. discriminate. }
  unfold trusted_rule in Ht.
  destruct (requestor_name req) as [| | |n| |]; try discriminate;
    try (injection Ht as <-; exfalso; exact (category_rules_not_allow req Hd)).
  destruct (bool_decide (n ∈ trusted_processes pe)) eqn:B.
  - injection Ht as <-. exists n. split; [reflexivity|].
    split; [apply bool_decide_eq_true in B; exact B | reflexivity].
  - injection Ht as <-. exfalso. exact (category_rules_not_allow req Hd).
Qed.

Lemma evaluate_allow_only_trusted_witness :
  ∃ n, requestor_name (sample_request "kalpana-ui" PROCESS_START "firefox") = PStr n ∧
       n ∈ trusted_processes default_policy ∧
       reason (mkResponse "REQ-20240309070500-000001" ALLOW "Trusted process: kalpana-ui")
       = "Trusted process: " +:+ n.
Proof.
  apply (evaluate_allow_only_trusted default_policy
           (sample_request "kalpana-ui" PROCESS_START "firefox")).
  - vm_compute. reflexivity.
  - reflexivity.
Defined.

Lemma protected_infix_denied_witness :
  evaluate default_policy (sample_request "systemd" FILE_DELETE "/mnt/boot/grub.cfg")
  = Ok (mkResponse "REQ-20240309070500-000001" DENY
          "Protected system path - modification forbidden").
Proof.
  apply (protected_infix_denied default_policy
           (sample_request "systemd" FILE_DELETE "/mnt/boot/grub.cfg")
           "/boot" "/mnt" "/grub.cfg").
  - right. reflexivity.
  - unfold default_policy, PolicyEngine_init. simpl. set_solver.
  - reflexivity.
Defined.

(** * Further properties of the authority *)

Lemma evaluate_request_id pe req resp :
  evaluate pe req = Ok resp → request_id resp = id req.
Proof.
  unfold evaluate, trusted_rule, category_rules. intros H.
  repeat (case_match; try discriminate); injection H as <-; reflexivity.
Qed.

Lemma evaluate_system_command pe req :
  action_type req = SYSTEM_COMMAND → evaluate pe req = trusted_rule pe req.
Proof. intros H. unfold evaluate. rewrite H. reflexivity. Qed.

Lemma category_rules_system_command req :
  action_type req = SYSTEM_COMMAND →
  category_rules req = mkResponse (id req) SANDBOX "Unknown action sandboxed by default".
Proof. intros H. unfold category_rules. rewrite H. reflexivity. Qed.

(** X4: over IPC only two outcomes exist.  An execute call that returns
    answers "allow" when the payload's process name is a string of the
    trusted-process set and "sandbox" otherwise; the command, its
    arguments, the pid and the uid play no part, and "deny" and "audit"
    are never answered. *)
Theorem execute_decides_by_name_only (env : CallEnv) (payload : gmap string pyval)
    (c c' : KalpanaCore) (r : ExecuteResponse) :
  handle_execute env payload c = (Ok r, c') →
  (∃ n, dict_get payload "process" (PStr "unknown") = PStr n ∧
        n ∈ trusted_processes (policy c) ∧
        er_decision r = "allow" ∧ er_allowed r = true ∧
        er_reason r = "Trusted process: " +:+ n) ∨
  ((∀ n, dict_get payload "process" (PStr "unknown") = PStr n →
         n ∉ trusted_processes (policy c)) ∧
   er_decision r = "sandbox" ∧ er_allowed r = false ∧
   er_reason r = "Unknown action sandboxed by default").
Proof.
  rewrite handle_execute_unfold. cbv zeta.
  set (ar := action_request_of _ _ _).
  rewrite (evaluate_system_command (policy c) ar eq_refl).
  unfold trusted_rule.
  rewrite (category_rules_system_command ar eq_refl).
  change (requestor_name ar) with (dict_get payload "process" (PStr "unknown")).
  destruct (dict_get payload "process" (PStr "unknown")) as [| | |n| |] eqn:E;
    try discriminate;
    try (destruct (disk_ok env); [|discriminate]; intros H; injection H as <- <-;
         right; split; [intros n' Hn'; discriminate | repeat split; reflexivity]).
  destruct (bool_decide (n ∈ trusted_processes (policy c))) eqn:B;
    (destruct (disk_ok env); [|discriminate]); intros H; injection H as <- <-.
  - left. exists n. apply bool_decide_eq_true in B. repeat split; try reflexivity.
    exact B.
  - right. apply bool_decide_eq_false in B. split; [|repeat split; reflexivity].
    intros n' Hn'. injection Hn' as <-. exact B.
Qed.

(** The authority's answer to a payload of the client library's [execute]
    when it trusts the name the library sends. *)
Lemma handle_execute_client env command args pid uid c :
  "kalpana-shell" ∈ trusted_processes (policy c) → disk_ok env = true →
  ∃ c',
    handle_execute env (client_execute command args pid uid) c
    = (Ok {| er_request_id := format_request_id (now_id env) (request_counter c + 1);
             er_decision := "allow";
             er_reason := "Trusted process: kalpana-shell";
             er_allowed := true |}, c').
Proof.
  intros Ht Hd. rewrite handle_execute_unfold. cbv zeta.
  set (ar := action_request_of _ _ _).
  rewrite (evaluate_system_command (policy c) ar eq_refl).
  assert (Hn : requestor_name ar = PStr "kalpana-shell").
  { unfold ar, action_request_of, dict_get, client_execute. simpl.
    simplify_map_eq. reflexivity. }
  rewrite (trusted_rule_trusted (policy c) ar "kalpana-shell" Hn Ht), Hd.
  eexists. reflexivity.
Qed.

(** X5: every command sent with the client library's [execute] is allowed.
    The library names the requester "kalpana-shell" itself, so an authority
    that trusts that name answers "allow" whatever the command, arguments,
    pid and uid are. *)
Theorem client_execute_always_allowed (DEV_MODE : bool) (env : CallEnv)
    (command : string) (args : option (list (string * pyval))) (pid uid : Z)
    (c : KalpanaCore) :
  "kalpana-shell" ∈ trusted_processes (policy c) → disk_ok env = true →
  ∃ c',
    process_request DEV_MODE env (client_execute command args pid uid) c
    = (Ok (ExecuteReply
             {| er_request_id := format_request_id (now_id env) (request_counter c + 1);
                er_decision := "allow";
                er_reason := "Trusted process: kalpana-shell";
                er_allowed := true |}), c').
Proof.
  intros Ht Hd.
  rewrite (process_request_execute _ _ _ _ (client_execute_routes command args pid uid)).
  destruct (handle_execute_client env command args pid uid c Ht Hd) as [c' ->].
  exists c'. reflexivity.
Qed.

Lemma client_execute_always_allowed_witness :
  ∃ c',
    process_request true sample_env (client_execute "rm -rf /boot" None 4242 0) fresh_core
    = (Ok (ExecuteReply
             {| er_request_id := "REQ-20240309070500-000001";
                er_decision := "allow";
                er_reason := "Trusted process: kalpana-shell";
                er_allowed := true |}), c').
Proof.
  apply (client_execute_always_allowed true sample_env "rm -rf /boot" None 4242 0
           fresh_core).
  - unfold fresh_core, KalpanaCore_init, PolicyEngine_init. simpl. set_solver.
  - reflexivity.
Defined.

Lemma execute_decides_by_name_only_witness :
  ∃ r c',
    handle_execute sample_env
      (<["process" := PStr "backup-job"]> (client_execute "tar cf /boot" None 77 0))
      fresh_core = (Ok r, c') ∧
    er_decision r = "sandbox" ∧ er_allowed r = false.
Proof.
  destruct (handle_execute sample_env
              (<["process" := PStr "backup-job"]> (client_execute "tar cf /boot" None 77 0))
              fresh_core) as [res c'] eqn:E.
  assert (Hres : ∃ r, res = Ok r).
  { assert (H : (handle_execute sample_env
              (<["process" := PStr "backup-job"]> (client_execute "tar cf /boot" None 77 0))
              fresh_core).1 = Ok {| er_request_id := "REQ-20240309070500-000001";
                                    er_decision := "sandbox";
                                    er_reason := "Unknown action sandboxed by default";
                                    er_allowed := false |})
      by (vm_compute; reflexivity).
    rewrite E in H. eexists. exact H. }
  destruct Hres as [r ->]. exists r, c'. split; [reflexivity|].
  destruct (execute_decides_by_name_only _ _ _ _ _ E)
    as [(n & Hn & Hin & _) | (_ & Hd & Ha & _)]; [|auto].
  exfalso.
  assert (Hnot : "backup-job" ∉ trusted_processes (policy fresh_core))
    by (apply (proj1 (bool_decide_eq_false _)); vm_compute; reflexivity).
  assert (Hp : dict_get (<["process" := PStr "backup-job"]>
                           (client_execute "tar cf /boot" None 77 0))
                 "process" (PStr "unknown") = PStr "backup-job")
    by (vm_compute; reflexivity).
  rewrite Hp in Hn. injection Hn as <-. contradiction.
Defined.

(** X6: an execute call whose requester name cannot be hashed raises
    [TypeError] after the identifier was generated: the request counter has
    moved on, so that identifier is never used, and nothing else has
    changed: no audit entry, no log line, the last decision as before. *)
Theorem execute_unhashable_only_counts (env : CallEnv) (payload : gmap string pyval)
    (c : KalpanaCore) :
  ¬ process_hashable payload →
  handle_execute env payload c
  = (Raise TypeError, set_request_counter (request_counter c + 1) c).
Proof.
  intros Hh. rewrite handle_execute_unfold. cbv zeta.
  set (ar := action_request_of _ _ _).
  rewrite (evaluate_system_command (policy c) ar eq_refl).
  assert (Hr : trusted_rule (policy c) ar = Raise TypeError).
  { apply trusted_rule_raises. unfold process_hashable in Hh.
    change (requestor_name ar) with (dict_get payload "process" (PStr "unknown")).
    destruct (hashable _); [exfalso; apply Hh; reflexivity | reflexivity]. }
  rewrite Hr. reflexivity.
Qed.

Lemma execute_unhashable_only_counts_witness :
  handle_execute sample_env
    (<["process" := PList [PStr "kalpana-shell"]]> (client_execute "ls" None 1 0))
    busy_core
  = (Raise TypeError, set_request_counter 3 busy_core).
Proof.
  apply (execute_unhashable_only_counts sample_env
           (<["process" := PList [PStr "kalpana-shell"]]> (client_execute "ls" None 1 0))
           busy_core).
  unfold process_hashable. vm_compute. discriminate.
Defined.

Lemma is_execute_routes payload : is_execute payload = true ↔ routes_to_execute payload.
Proof. reflexivity. Qed.

(** One request moves the counter by one exactly when it is an execute
    request, never touches the policy, and adds at most one entry. *)
Lemma process_request_counts DEV_MODE env payload c :
  let c' := (process_request DEV_MODE env payload c).2 in
  policy c' = policy c ∧
  request_counter c'
  = (request_counter c + if is_execute payload then 1 else 0)%N ∧
  length (entries (audit c'))
  ≤ length (entries (audit c)) + (if is_execute payload then 1 else 0).
Proof.
  intros c'. subst c'. destruct (is_execute payload) eqn:E.
  - rewrite (process_request_execute _ _ _ _ E), handle_execute_unfold. cbv zeta.
    destruct (evaluate _ _) as [resp|ex]; [destruct (disk_ok env)|]; simpl;
      rewrite ?length_app; simpl; repeat split; lia.
  - rewrite process_request_read_only.
    + rewrite N.add_0_r. repeat split; lia.
    + unfold routes_to_execute. unfold is_execute in E. congruence.
Qed.

Lemma process_requests_counts DEV_MODE calls c :
  let c' := (process_requests DEV_MODE calls c).2 in
  policy c' = policy c ∧
  request_counter c' = (request_counter c + N.of_nat (count_execute calls))%N ∧
  length (entries (audit c')) ≤ length (entries (audit c)) + count_execute calls.
Proof.
  revert c. induction calls as [|[env payload] calls IH]; intros c.
  - simpl. rewrite N.add_0_r. repeat split; lia.
  - simpl. pose proof (process_request_counts DEV_MODE env payload c) as Hstep.
    destruct (process_request DEV_MODE env payload c) as [r c1]. simpl in Hstep.
    specialize (IH c1). destruct (process_requests DEV_MODE calls c1) as [rs c2].
    simpl in IH |- *. destruct Hstep as (Hp & Hc & He). destruct IH as (Hp' & Hc' & He').
    unfold count_execute in *. rewrite filter_cons. simpl.
    destruct (decide (is_execute payload = true)) as [Ht|Hf].
    + rewrite Ht in *. simpl length. repeat split; [congruence | lia | lia].
    + apply not_true_is_false in Hf. rewrite Hf in *.
      repeat split; [congruence | lia | lia].
Qed.

(** X7: the status report after any sequence of requests served since
    start-up.  [requests_processed] is the number of execute requests
    received, failed ones included; [audit_entries] is never larger;
    [policies_loaded] is the number of documents loaded at start-up,
    whatever was requested since. *)
Theorem status_counts_execute_requests (DEV_MODE : bool) (docs : list pyval)
    (file : list LogLine) (calls : list (CallEnv * gmap string pyval)) :
  let st := get_status DEV_MODE
              (process_requests DEV_MODE calls (KalpanaCore_init docs file)).2 in
  sr_requests_processed st = N.of_nat (count_execute calls) ∧
  sr_audit_entries st ≤ count_execute calls ∧
  sr_policies_loaded st = length docs ∧
  sr_status st = "online".
Proof.
  destruct (process_requests_counts DEV_MODE calls (KalpanaCore_init docs file))
    as (Hp & Hc & He).
  simpl in *. unfold get_status. simpl. rewrite Hp, Hc. simpl.
  repeat split; try reflexivity. exact He.
Qed.

Lemma pair_from_fst {A B} (p : A * B) (a : A) : p.1 = a → p = (a, p.2).
Proof. destruct p. simpl. intros ->. reflexivity. Qed.

(** A returning call of [handle_execute], read off its steps. *)
Lemma handle_execute_returns env payload c c' r :
  handle_execute env payload c = (Ok r, c') →
  ∃ resp,
    let ar := action_request_of (format_request_id (now_id env) (request_counter c + 1))
                (now_request env) payload in
    let e := audit_entry_of (now_entry env) ar resp in
    evaluate (policy c) ar = Ok resp ∧
    r = execute_response_of resp ∧
    entries (audit c') = entries (audit c) ++ [e] ∧
    log_file (audit c') = log_file (audit c) ++ [log_line_of e] ∧
    last_decision c' = Some resp.
Proof.
  rewrite handle_execute_unfold. cbv zeta.
  destruct (evaluate _ _) as [resp|ex] eqn:He; [|discriminate].
  destruct (disk_ok env); [|discriminate].
  intros H. injection H as <- <-. exists resp. simpl. auto.
Qed.

(** X8: the reply of an execute call and the records it leaves agree.  The
    call appends one audit entry and one line to the log file; the reply,
    the entry's request, the entry's response and the line carry the same
    identifier, the one generated from the clock and from the counter plus
    one; the decision and the reason of the reply are those recorded, and
    they are the last decision remembered. *)
Theorem execute_reply_matches_records (env : CallEnv) (payload : gmap string pyval)
    (c c' : KalpanaCore) (r : ExecuteResponse) :
  handle_execute env payload c = (Ok r, c') →
  ∃ e,
    entries (audit c') = entries (audit c) ++ [e] ∧
    log_file (audit c') = log_file (audit c) ++ [log_line_of e] ∧
    er_request_id r = format_request_id (now_id env) (request_counter c + 1) ∧
    id (request e) = er_request_id r ∧
    request_id (response e) = er_request_id r ∧
    ll_request_id (log_line_of e) = er_request_id r ∧
    Decision_value (decision (response e)) = er_decision r ∧
    ll_decision (log_line_of e) = er_decision r ∧
    reason (response e) = er_reason r ∧
    last_decision c' = Some (response e).
Proof.
  intros H. destruct (handle_execute_returns _ _ _ _ _ H)
    as (resp & He & -> & Hent & Hfile & Hlast).
  apply evaluate_request_id in He. simpl in He.
  eexists. split; [exact Hent|]. split; [exact Hfile|].
  simpl. repeat split; try reflexivity; try assumption; symmetry; assumption.
Qed.

Lemma execute_reply_matches_records_witness :
  ∃ r c' e,
    handle_execute sample_env (client_execute "ls -la" None 4242 1000) fresh_core
    = (Ok r, c') ∧
    entries (audit c') = entries (audit fresh_core) ++ [e] ∧
    id (request e) = er_request_id r.
Proof.
  destruct (handle_execute sample_env (client_execute "ls -la" None 4242 1000) fresh_core)
    as [res c'] eqn:E.
  assert (Hres : ∃ r, res = Ok r).
  { assert (H : ∃ r, (handle_execute sample_env (client_execute "ls -la" None 4242 1000)
                        fresh_core).1 = Ok r)
      by (eexists; vm_compute; reflexivity).
    rewrite E in H. exact H. }
  destruct Hres as [r ->].
  destruct (execute_reply_matches_records _ _ _ _ _ E) as (e & He & _ & _ & Hid & _).
  exists r, c', e. auto.
Defined.

(** X9: an explain request that follows an execute call reports that call:
    the identifier, the decision and the reason of the execute reply, and
    the sentence made of the last two. *)
Theorem explain_reports_last_execute (DEV_MODE : bool) (env env' : CallEnv)
    (payload question : gmap string pyval) (c c' : KalpanaCore) (r : ExecuteResponse) :
  process_request DEV_MODE env payload c = (Ok (ExecuteReply r), c') →
  question !! "command" = Some (PStr "explain") →
  process_request DEV_MODE env' question c'
  = (Ok (ExplainReply
           (Explained (er_request_id r) (er_decision r) (er_reason r)
              ("The action was " +:+ er_decision r +:+ " because: " +:+ er_reason r))),
     c').
Proof.
  intros He Hq.
  assert (Hr : routes_to_execute payload).
  { destruct (routes_to_execute_dec payload) as [Hr|Hr]; [exact Hr|].
    exfalso. unfold routes_to_execute in Hr. unfold process_request, process_request_with in He.
    destruct (py_eq_str (dict_get payload "command" PNone) "execute");
      [congruence|].
    repeat (destruct (py_eq_str _ _); [discriminate|]). discriminate. }
  rewrite (process_request_execute _ _ _ _ Hr) in He.
  destruct (handle_execute env payload c) as [[r0|ex] c0] eqn:E; [|discriminate].
  injection He as <- <-.
  destruct (handle_execute_returns _ _ _ _ _ E) as (resp & _ & -> & _ & _ & Hl).
  unfold process_request, process_request_with, dict_get. rewrite Hq. simpl.
  unfold bind, gets, ret, explain_last_decision. rewrite Hl. reflexivity.
Qed.

Lemma explain_reports_last_execute_witness :
  ∃ c',
    process_request true sample_env {[ "command" := PStr "explain" ]} c'
    = (Ok (ExplainReply
             (Explained "REQ-20240309070500-000001" "allow"
                "Trusted process: kalpana-shell"
                "The action was allow because: Trusted process: kalpana-shell")),
       c').
Proof.
  eexists.
  apply (explain_reports_last_execute true sample_env sample_env
           (client_execute "ls" None 1 0) {[ "command" := PStr "explain" ]}
           fresh_core _
           {| er_request_id := "REQ-20240309070500-000001"; er_decision := "allow";
              er_reason := "Trusted process: kalpana-shell"; er_allowed := true |}).
  - apply pair_from_fst. vm_compute. reflexivity.
  - reflexivity.
Defined.

(** One request keeps the log file in step with the entries: the lines
    written so far are the lines of some of the entries, in order, and of
    all of them as long as no write has failed. *)
Lemma process_request_file_step DEV_MODE env payload c file written :
  log_file (audit c) = file ++ map log_line_of written →
  written `sublist_of` entries (audit c) →
  let c' := (process_request DEV_MODE env payload c).2 in
  ∃ written',
    log_file (audit c') = file ++ map log_line_of written' ∧
    written' `sublist_of` entries (audit c') ∧
    (disk_ok env = true → written = entries (audit c) → written' = entries (audit c')).
Proof.
  intros Hfile Hsub c'. subst c'.
  destruct (routes_to_execute_dec payload) as [Hr|Hr].
  - rewrite (process_request_execute _ _ _ _ Hr), handle_execute_unfold. cbv zeta.
    destruct (evaluate _ _) as [resp|ex].
    + destruct (disk_ok env); simpl.
      * eexists (written ++ [_]). rewrite map_app, app_assoc, <- Hfile.
        split; [reflexivity|]. split.
        -- apply sublist_app; [exact Hsub | reflexivity].
        -- intros _ ->. reflexivity.
      * exists written. split; [exact Hfile|]. split.
        -- apply sublist_inserts_r. exact Hsub.
        -- discriminate.
    + simpl. exists written. split; [exact Hfile|]. split; [exact Hsub|]. auto.
  - rewrite (process_request_read_only _ _ _ _ Hr).
    exists written. split; [exact Hfile|]. split; [exact Hsub|]. auto.
Qed.

Lemma process_requests_file DEV_MODE calls c file written :
  log_file (audit c) = file ++ map log_line_of written →
  written `sublist_of` entries (audit c) →
  let c' := (process_requests DEV_MODE calls c).2 in
  ∃ written',
    log_file (audit c') = file ++ map log_line_of written' ∧
    written' `sublist_of` entries (audit c') ∧
    (Forall (fun call => disk_ok call.1 = true) calls →
     written = entries (audit c) → written' = entries (audit c')).
Proof.
  revert c written. induction calls as [|[env payload] calls IH];
    intros c written Hfile Hsub.
  - simpl. exists written. auto.
  - simpl.
    destruct (process_request_file_step DEV_MODE env payload c file written Hfile Hsub)
      as (w1 & Hfile1 & Hsub1 & Hall1).
    destruct (process_request DEV_MODE env payload c) as [r c1]. simpl in *.
    destruct (IH c1 w1 Hfile1 Hsub1) as (w2 & Hfile2 & Hsub2 & Hall2).
    destruct (process_requests DEV_MODE calls c1) as [rs c2]. simpl in *.
    exists w2. split; [exact Hfile2|]. split; [exact Hsub2|].
    intros Hok Hw. apply Forall_cons in Hok. destruct Hok as [Hok1 Hok].
    apply Hall2; [exact Hok | apply Hall1; assumption].
Qed.

(** X10: the log file follows the audit sequence.  After any sequence of
    requests served since start-up, the file holds the lines it had at
    start-up followed by the lines of some of the audit entries, in their
    order: no line without its entry.  When no write has failed it holds
    one line for every entry. *)
Theorem log_file_follows_entries (DEV_MODE : bool) (docs : list pyval)
    (file : list LogLine) (calls : list (CallEnv * gmap string pyval)) :
  let c' := (process_requests DEV_MODE calls (KalpanaCore_init docs file)).2 in
  ∃ written,
    log_file (audit c') = file ++ map log_line_of written ∧
    written `sublist_of` entries (audit c') ∧
    (Forall (fun call => disk_ok call.1 = true) calls →
     log_file (audit c') = file ++ map log_line_of (entries (audit c'))).
Proof.
  destruct (process_requests_file DEV_MODE calls (KalpanaCore_init docs file) file [])
    as (written & Hfile & Hsub & Hall).
  - simpl. rewrite app_nil_r. reflexivity.
  - simpl. constructor.
  - exists written. split; [exact Hfile|]. split; [exact Hsub|].
    intros Hok. rewrite <- (Hall Hok eq_refl). exact Hfile.
Qed.

(** * Further properties of the audit queries *)

Lemma elem_of_matching a k d e :
  e ∈ matching a k d ↔
  e ∈ entries a ∧
  (∀ k', k = Some k' → action_type (request e) = k') ∧
  (∀ d', d = Some d' → decision (response e) = d').
Proof.
  unfold matching. rewrite list_elem_of_filter. unfold passes.
  rewrite andb_true_iff.
  destruct k as [k|], d as [d|]; rewrite ?bool_decide_eq_true; split;
    intros H; repeat split; try tauto; try (intros ? [= <-]; tauto);
    try discriminate; try (apply H; reflexivity).
Qed.

(** X11: a query with a positive limit returns the most recent matching
    entries, oldest first: as many as the limit allows, every one of them a
    logged entry that satisfies each filter given, and all the matching
    entries when they are no more than the limit. *)
Theorem query_returns_latest_matching (a : AuditLogger) (k : option ActionType)
    (d : option Decision) (limit : Z) :
  (0 < limit)%Z →
  query a k d limit = drop (length (matching a k d) - Z.to_nat limit) (matching a k d) ∧
  length (query a k d limit) = Nat.min (Z.to_nat limit) (length (matching a k d)) ∧
  (∀ e, e ∈ query a k d limit →
        e ∈ entries a ∧
        (∀ k', k = Some k' → action_type (request e) = k') ∧
        (∀ d', d = Some d' → decision (response e) = d')) ∧
  (length (matching a k d) ≤ Z.to_nat limit → query a k d limit = matching a k d).
Proof.
  intros Hl. rewrite query_matching, py_slice_from_last by assumption.
  split; [reflexivity|]. split; [rewrite length_drop; lia|]. split.
  - intros e He. apply elem_of_matching.
    eapply elem_of_sublist; [exact He | apply sublist_drop].
  - intros Hle. replace (length (matching a k d) - Z.to_nat limit) with 0 by lia.
    reflexivity.
Qed.

Lemma query_returns_latest_matching_witness :
  query (audit busy_core) (Some SYSTEM_COMMAND) (Some ALLOW) 1
  = drop (length (matching (audit busy_core) (Some SYSTEM_COMMAND) (Some ALLOW)) - 1)
      (matching (audit busy_core) (Some SYSTEM_COMMAND) (Some ALLOW)) ∧
  length (query (audit busy_core) (Some SYSTEM_COMMAND) (Some ALLOW) 1) = 1.
Proof.
  destruct (query_returns_latest_matching (audit busy_core) (Some SYSTEM_COMMAND)
              (Some ALLOW) 1 ltac:(lia)) as (Hq & Hlen & _).
  split; [exact Hq|]. rewrite Hlen. vm_compute. reflexivity.
Defined.

(** X12: a negative limit does not limit the number of entries: a query
    with limit [-n] skips the [n] oldest matching entries and returns all
    the others, however many they are. *)
Theorem query_negative_limit_skips_oldest (a : AuditLogger) (k : option ActionType)
    (d : option Decision) (n : nat) :
  0 < n →
  query a k d (- Z.of_nat n) = drop n (matching a k d) ∧
  length (query a k d (- Z.of_nat n)) = length (matching a k d) - n.
Proof.
  intros Hn. rewrite query_matching. unfold py_slice_from.
  rewrite Z.opp_involutive.
  destruct (Z.ltb_spec (Z.of_nat n) 0) as [Hlt|_]; [lia|].
  rewrite Nat2Z.id. split; [reflexivity | apply length_drop].
Qed.

Lemma query_negative_limit_skips_oldest_witness :
  query (audit busy_core) None None (- Z.of_nat 1) = drop 1 (matching (audit busy_core) None None) ∧
  length (query (audit busy_core) None None (- Z.of_nat 1))
  = length (matching (audit busy_core) None None) - 1.
Proof.
  apply (query_negative_limit_skips_oldest (audit busy_core) None None 1). lia.
Defined.

(** * Properties of the framing *)

Lemma to_N_byte_of_N n : Byte.to_N (byte_of_N n) = (n mod 256)%N.
Proof.
  unfold byte_of_N. destruct (Byte.of_N (n mod 256)) as [b|] eqn:E.
  - apply Byte.to_of_N, E.
  - apply Byte.of_N_None_iff in E. pose proof (N.mod_lt n 256 ltac:(lia)). lia.
Qed.

Lemma u32_recompose n :
  (n < 2 ^ 32)%N →
  ((n / 2 ^ 24) mod 256 * 2 ^ 24 + (n / 2 ^ 16) mod 256 * 2 ^ 16 +
   (n / 2 ^ 8) mod 256 * 2 ^ 8 + n mod 256 = n)%N.
Proof.
  intros H. change (2 ^ 32)%N with 4294967296%N in H.
  change (2 ^ 24)%N with 16777216%N. change (2 ^ 16)%N with 65536%N.
  change (2 ^ 8)%N with 256%N.
  zify. Z.to_euclidean_division_equations. lia.
Qed.

Lemma pack_u32_be_some n : (n < 2 ^ 32)%N → ∃ h, pack_u32_be n = Some h ∧ length h = 4.
Proof.
  intros H. unfold pack_u32_be.
  destruct (N.ltb_spec n (2 ^ 32)) as [_|Hge]; [|lia].
  eexists. split; reflexivity.
Qed.

Lemma pack_u32_be_none n : (2 ^ 32 ≤ n)%N → pack_u32_be n = None.
Proof.
  intros H. unfold pack_u32_be.
  destruct (N.ltb_spec n (2 ^ 32)) as [Hlt|_]; [lia | reflexivity].
Qed.

Lemma unpack_pack_u32_be n h : pack_u32_be n = Some h → unpack_u32_be h = Some n.
Proof.
  unfold pack_u32_be. destruct (N.ltb_spec n (2 ^ 32)) as [Hlt|_]; [|discriminate].
  intros [= <-]. unfold unpack_u32_be. rewrite !to_N_byte_of_N.
  f_equal. apply u32_recompose, Hlt.
Qed.

Lemma pack_u32_be_length n h : pack_u32_be n = Some h → length h = 4.
Proof.
  unfold pack_u32_be. destruct (n <? 2 ^ 32)%N; [|discriminate].
  intros [= <-]. reflexivity.
Qed.

(** Reading from a buffer that holds something never waits. *)
Lemma read_buffered n r :
  (0 < n)%N → buffered r ≠ [] →
  read n r = (take (N.to_nat n) (buffered r),
              {| buffered := drop (N.to_nat n) (buffered r); arriving := arriving r |}).
Proof.
  intros Hn Hb. unfold read. destruct (N.eqb_spec n 0) as [->|_]; [lia|].
  unfold wait_for_data. destruct r as [buf arr]. simpl in *.
  destruct buf; [contradiction | reflexivity].
Qed.

Lemma read_frame_header h n tail arr :
  pack_u32_be n = Some h →
  read_frame {| buffered := h ++ tail; arriving := arr |}
  = let '(msg_data, r2) := read n {| buffered := tail; arriving := arr |} in
    (FrameBody n msg_data, r2).
Proof.
  intros Hp. pose proof (pack_u32_be_length n h Hp) as Hlen.
  pose proof (unpack_pack_u32_be n h Hp) as Hun.
  destruct h as [|b3 [|b2 [|b1 [|b0 [|]]]]]; try discriminate.
  unfold read_frame. rewrite read_buffered by (try lia; discriminate).
  change (N.to_nat 4) with 4. cbn [buffered arriving].
  change (take 4 ([b3; b2; b1; b0] ++ tail)) with [b3; b2; b1; b0].
  change (drop 4 ([b3; b2; b1; b0] ++ tail)) with tail.
  rewrite Hun. reflexivity.
Qed.

Lemma read_frame_whole data f rest arr :
  frame data = Some f →
  read_frame {| buffered := f ++ rest; arriving := arr |}
  = (FrameBody (N.of_nat (length data)) data, {| buffered := rest; arriving := arr |}).
Proof.
  unfold frame. destruct (pack_u32_be (N.of_nat (length data))) as [h|] eqn:Hp;
    [|discriminate].
  intros [= <-]. rewrite <- app_assoc, (read_frame_header h _ _ arr Hp).
  destruct data as [|b data].
  - reflexivity.
  - rewrite read_buffered by (simpl; try lia; discriminate).
    cbn [buffered arriving]. rewrite Nat2N.id.
    rewrite take_app_length, drop_app_length. reflexivity.
Qed.

Lemma frame_length data f : frame data = Some f → length f = 4 + length data.
Proof.
  unfold frame. destruct (pack_u32_be (N.of_nat (length data))) as [h|] eqn:Hp;
    [|discriminate].
  intros [= <-]. rewrite length_app, (pack_u32_be_length _ _ Hp). reflexivity.
Qed.

(** X13: framing round trip.  A message that is framed and then read from
    a buffer that holds the whole frame comes back as it was sent, with
    the announced length, and the bytes after the frame stay in the buffer
    for the next read.  The frame is four bytes longer than the message. *)
Theorem frame_round_trip (data f : list byte) :
  frame data = Some f →
  length f = 4 + length data ∧
  ∀ rest arr,
    read_frame {| buffered := f ++ rest; arriving := arr |}
    = (FrameBody (N.of_nat (length data)) data, {| buffered := rest; arriving := arr |}).
Proof.
  intros Hf. split; [apply frame_length, Hf|].
  intros rest arr. apply read_frame_whole, Hf.
Qed.

Lemma frame_round_trip_witness :
  frame sample_bytes = Some [x00; x00; x00; x02; x7b; x7d] ∧
  read_frame {| buffered := [x00; x00; x00; x02; x7b; x7d] ++ [x00; x00];
                arriving := [] |}
  = (FrameBody 2 sample_bytes, {| buffered := [x00; x00]; arriving := [] |}).
Proof.
  split; [vm_compute; reflexivity|].
  apply (frame_round_trip sample_bytes [x00; x00; x00; x02; x7b; x7d]).
  vm_compute. reflexivity.
Defined.

(** X14: a read does not wait for the whole body.  When fewer bytes than
    the header announces are at hand, because the rest of the buffer or
    the next chunk delivered is shorter, those bytes alone are returned as
    the message and the reader is left at a position inside the frame. *)
Theorem read_frame_truncates (n : N) (h part : list byte) (arr : list (list byte)) :
  pack_u32_be n = Some h → part ≠ [] → (N.of_nat (length part) < n)%N →
  read_frame {| buffered := h ++ part; arriving := arr |}
  = (FrameBody n part, {| buffered := []; arriving := arr |}) ∧
  read_frame {| buffered := h; arriving := part :: arr |}
  = (FrameBody n part, {| buffered := []; arriving := arr |}).
Proof.
  intros Hp Hne Hlen.
  assert (Htake : take (N.to_nat n) part = part) by (apply take_ge; lia).
  assert (Hdrop : drop (N.to_nat n) part = []) by (apply drop_ge; lia).
  split.
  - rewrite (read_frame_header h n part arr Hp).
    rewrite read_buffered by (simpl; try lia; assumption).
    cbn [buffered arriving]. rewrite Htake, Hdrop. reflexivity.
  - rewrite <- (app_nil_r h) at 1. rewrite (read_frame_header h n [] _ Hp).
    unfold read. destruct (N.eqb_spec n 0) as [->|_]; [lia|].
    unfold wait_for_data. cbn [buffered arriving next_chunk].
    destruct part as [|b part]; [contradiction|].
    cbn [buffered arriving]. rewrite Htake, Hdrop. reflexivity.
Qed.

Lemma read_frame_truncates_witness :
  read_frame {| buffered := [x00; x00; x00; x02] ++ [x7b]; arriving := [[x7d]] |}
  = (FrameBody 2 [x7b], {| buffered := []; arriving := [[x7d]] |}) ∧
  read_frame {| buffered := [x00; x00; x00; x02]; arriving := [x7b] :: [[x7d]] |}
  = (FrameBody 2 [x7b], {| buffered := []; arriving := [[x7d]] |}).
Proof.
  apply (read_frame_truncates 2 [x00; x00; x00; x02] [x7b] [[x7d]]).
  - vm_compute. reflexivity.
  - discriminate.
  - vm_compute. reflexivity.
Defined.

(** X15: a length prefix that arrives in pieces is not waited for either.
    With one to three bytes in the buffer, [read(4)] returns them, and
    decoding them fails with [struct.error] although the missing bytes are
    on their way. *)
Theorem read_frame_short_header (length_data : list byte) (arr : list (list byte)) :
  0 < length length_data < 4 →
  read_frame {| buffered := length_data; arriving := arr |}
  = (FrameBadHeader length_data, {| buffered := []; arriving := arr |}).
Proof.
  intros [Hpos Hlt]. unfold read_frame.
  assert (Hne : buffered {| buffered := length_data; arriving := arr |} ≠ []).
  { destruct length_data; simpl in *; [lia | discriminate]. }
  rewrite (read_buffered 4 _ ltac:(lia) Hne).
  cbn [buffered arriving].
  rewrite take_ge by (simpl; lia). rewrite drop_ge by (simpl; lia).
  destruct length_data as [|b0 [|b1 [|b2 [|b3 l]]]]; simpl in *; try lia; reflexivity.
Qed.

Lemma read_frame_short_header_witness :
  read_frame {| buffered := [x00; x00]; arriving := [[x00; x02; x7b; x7d]] |}
  = (FrameBadHeader [x00; x00], {| buffered := []; arriving := [[x00; x02; x7b; x7d]] |}).
Proof.
  apply (read_frame_short_header [x00; x00] [[x00; x02; x7b; x7d]]). simpl. lia.
Defined.

(** * Properties of a client connection *)

Lemma next_chunk_concat chunks :
  concat chunks = (next_chunk chunks).1 ++ concat (next_chunk chunks).2.
Proof.
  induction chunks as [|chunk chunks IH]; [reflexivity|].
  destruct chunk as [|b chunk]; [exact IH | reflexivity].
Qed.

Lemma wait_for_data_size r : stream_size (wait_for_data r) = stream_size r.
Proof.
  unfold wait_for_data, stream_size. destruct r as [[|b buf] arr]; [|reflexivity].
  cbn [buffered arriving]. rewrite (next_chunk_concat arr).
  destruct (next_chunk arr) as [chunk rest]. simpl. rewrite length_app. lia.
Qed.

(** A read hands over bytes of the stream and loses none. *)
Lemma read_size n r :
  length (read n r).1 + stream_size (read n r).2 = stream_size r.
Proof.
  unfold read. destruct (n =? 0)%N; [reflexivity|].
  rewrite <- (wait_for_data_size r). unfold stream_size. simpl.
  rewrite length_take, length_drop. lia.
Qed.

Lemma deliver_size k r : stream_size (deliver k r) = stream_size r.
Proof.
  revert r. induction k as [|k IH]; intros r; [reflexivity|].
  simpl. pose proof (next_chunk_concat (arriving r)) as Hc.
  destruct (next_chunk (arriving r)) as [chunk rest]. rewrite IH.
  unfold stream_size. simpl in *. rewrite Hc, !length_app. lia.
Qed.

Lemma read_frame_size r :
  match read_frame r with
  | (FrameEof, r') => stream_size r' ≤ stream_size r
  | (FrameBadHeader _, r') => stream_size r' < stream_size r
  | (FrameBody _ _, r') => stream_size r' < stream_size r
  end.
Proof.
  unfold read_frame. pose proof (read_size 4 r) as H4.
  destruct (read 4 r) as [hd r1]. simpl in H4.
  destruct hd as [|b hd]; [simpl in H4; lia|].
  destruct (unpack_u32_be (b :: hd)) as [n|]; [|simpl in H4; lia].
  pose proof (read_size n r1) as Hn. destruct (read n r1) as [d r2].
  simpl in *. lia.
Qed.

Lemma next_chunk_nothing chunks : (next_chunk chunks).1 = [] → concat chunks = [].
Proof.
  induction chunks as [|chunk chunks IH]; [reflexivity|].
  destruct chunk as [|b chunk]; [exact IH | discriminate].
Qed.

(** The end of the stream is found only when every byte has been read. *)
Lemma read_frame_eof r r' : read_frame r = (FrameEof, r') → stream_size r = 0.
Proof.
  unfold read_frame, read. cbn [N.eqb]. unfold wait_for_data, stream_size.
  destruct r as [[|b buf] arr]; cbn [buffered arriving].
  - pose proof (next_chunk_nothing arr) as Hn.
    destruct (next_chunk arr) as [[|x chunk] rest]; cbn [buffered arriving].
    + intros _. rewrite Hn by reflexivity. reflexivity.
    + cbn [take N.to_nat Pos.to_nat Pos.iter_op Nat.add].
      destruct (unpack_u32_be _); [|discriminate].
      destruct (_ =? _)%N; discriminate.
  - cbn [take N.to_nat Pos.to_nat Pos.iter_op Nat.add].
    destruct (unpack_u32_be _); [|discriminate].
    destruct (_ =? _)%N; discriminate.
Qed.

Section ConnectionFacts.
Variable DEV_MODE : bool.
Variable json_loads : list byte → option pyval.
Variable json_dumps : IpcResponse → list byte.

Local Abbreviation serve := (serve_frame DEV_MODE json_loads json_dumps).
Local Abbreviation loop := (handle_client_loop DEV_MODE json_loads json_dumps).

(** What a turn of the loop tells about the stream and the drain: a turn
    that goes on has used up part of the stream; a frame handed to the
    writer is the frame of some message; and the three ways to go on from
    a written frame are the three ways the drain can go. *)
Lemma serve_frame_step env r c :
  match serve env r c with
  | Stop e _ _ =>
      e ≠ ConnectionError ConnectionLost ∧ (e = PeerClosed → stream_size r = 0)
  | Continue f r' _ =>
      stream_size r' < stream_size r ∧ (∃ data, frame data = Some f) ∧
      drain env = Drained
  | Lost f _ _ => (∃ data, frame data = Some f) ∧ drain env = DrainRaised
  | Stalled f _ _ => (∃ data, frame data = Some f) ∧ drain env = DrainBlocked
  end.
Proof.
  unfold serve_frame. pose proof (read_frame_size r) as Hs.
  pose proof (read_frame_eof r) as Heof.
  destruct (read_frame r) as [[| |n msg] r2]; [eauto | split; discriminate |].
  unfold handle_message.
  destruct (json_loads msg) as [[| | | | |d]|]; try (split; discriminate).
  destruct (process_request _ _ _ _) as [[response|e] c2]; [|split; discriminate].
  destruct (json_serializable response); [|split; discriminate].
  destruct (frame (json_dumps response)) as [f0|] eqn:Hf; [|split; discriminate].
  unfold after_write. destruct (drain env) eqn:Ed.
  - rewrite deliver_size. eauto.
  - eauto.
  - eauto.
Qed.

Lemma handle_client_loop_frames fuel envs i r out c :
  stream_size r < fuel →
  ending (loop fuel envs i r out c) ≠ None ∧
  (ending (loop fuel envs i r out c) = Some WaitsInDrain →
   ∃ k, frames_served (loop fuel envs i r out c) = S k ∧ drain (envs k) = DrainBlocked) ∧
  (ending (loop fuel envs i r out c) = Some (LoopLeft (ConnectionError ConnectionLost)) →
   ∃ k, frames_served (loop fuel envs i r out c) = S k ∧ drain (envs k) = DrainRaised) ∧
  (ending (loop fuel envs i r out c) = Some (LoopLeft PeerClosed) →
   frames_served (loop fuel envs i r out c) = i → stream_size r = 0) ∧
  ∃ datas,
    sent (loop fuel envs i r out c) = out ++ wire datas ∧
    frames_served (loop fuel envs i r out c) = i + length datas ∧
    Forall (fun data => frame data ≠ None) datas.
Proof.
  revert i r out c. induction fuel as [|fuel IH]; intros i r out c Hfuel; [lia|].
  cbn [handle_client_loop]. pose proof (serve_frame_step (envs i) r c) as Hstep.
  destruct (serve (envs i) r c) as [e r' c'|f r' c'|f r' c'|f r' c'].
  - cbn [ending sent frames_served]. destruct Hstep as [Hnl Heof].
    split; [discriminate|]. split; [discriminate|]. split; [congruence|].
    split; [intros [= ->] _; auto|].
    exists []. simpl. rewrite app_nil_r, Nat.add_0_r. repeat split. constructor.
  - destruct Hstep as (Hlt & [data Hd] & _).
    destruct (IH (S i) r' (out ++ f) c' ltac:(lia))
      as (Hend & Hwait & Hlost & _ & datas & Hs & Hn & Hall).
    split; [exact Hend|]. split; [exact Hwait|]. split; [exact Hlost|].
    split; [intros _ Hi; lia|].
    exists (data :: datas). simpl. rewrite Hd. simpl.
    rewrite Hs, Hn, <- app_assoc. repeat split; [lia|].
    constructor; [congruence | exact Hall].
  - destruct Hstep as ([data Hd] & Hdrain). cbn [ending sent frames_served].
    split; [discriminate|]. split; [discriminate|]. split; [eauto|].
    split; [discriminate|].
    exists [data]. simpl. rewrite Hd. simpl. rewrite app_nil_r.
    repeat split; [lia|]. constructor; [congruence | constructor].
  - destruct Hstep as ([data Hd] & Hdrain). cbn [ending sent frames_served].
    split; [discriminate|]. split; [eauto|]. split; [discriminate|].
    split; [discriminate|].
    exists [data]. simpl. rewrite Hd. simpl. rewrite app_nil_r.
    repeat split; [lia|]. constructor; [congruence | constructor].
Qed.

(** X16: on a stream that ends the loop of [handle_client] never waits for
    input for ever: whatever the stream, the codec and the requests are, it
    is left, or the handler is held in a drain.  It is held only where a
    drain never returns, and left for a lost connection only where a drain
    raises; so it is left whenever no drain blocks.  It is not left as at
    the end of the stream, with nothing answered, while bytes are unread.
    In every case what was handed to the writer is a sequence of whole
    frames, one for each request answered. *)
Theorem handle_client_writes_whole_frames (envs : nat → FrameEnv) (r : Reader)
    (c : KalpanaCore) :
  let s := handle_client DEV_MODE json_loads json_dumps envs r c in
  (∃ o, ending s = Some o) ∧
  (ending s = Some WaitsInDrain →
   ∃ k, frames_served s = S k ∧ drain (envs k) = DrainBlocked) ∧
  (ending s = Some (LoopLeft (ConnectionError ConnectionLost)) →
   ∃ k, frames_served s = S k ∧ drain (envs k) = DrainRaised) ∧
  ((∀ k, drain (envs k) ≠ DrainBlocked) → ∃ e, ending s = Some (LoopLeft e)) ∧
  (ending s = Some (LoopLeft PeerClosed) → frames_served s = 0 → stream_size r = 0) ∧
  ∃ datas,
    sent s = wire datas ∧ length datas = frames_served s ∧
    Forall (fun data => frame data ≠ None) datas.
Proof.
  destruct (handle_client_loop_frames (S (stream_size r)) envs 0 r [] c ltac:(lia))
    as (Hend & Hwait & Hlost & Heof & datas & Hs & Hn & Hall).
  cbv zeta. fold (handle_client DEV_MODE json_loads json_dumps envs r c) in *.
  destruct (ending (handle_client DEV_MODE json_loads json_dumps envs r c))
    as [[e|]|] eqn:Ee; [| |congruence].
  - split; [eauto|]. split; [discriminate|]. split; [exact Hlost|].
    split; [eauto|]. split; [exact Heof|]. exists datas. auto.
  - split; [eauto|]. split; [exact Hwait|]. split; [discriminate|]. split.
    + intros Hnever. destruct (Hwait eq_refl) as (k & _ & Hk).
      destruct (Hnever k Hk).
    + split; [discriminate|]. exists datas. auto.
Qed.
End ConnectionFacts.

Lemma wire_app bs1 bs2 : wire (bs1 ++ bs2) = wire bs1 ++ wire bs2.
Proof.
  induction bs1 as [|b bs1 IH]; [reflexivity|].
  simpl. rewrite IH, app_assoc. reflexivity.
Qed.

Lemma wire_nil_inv bs :
  Forall (fun b => frame b ≠ None) bs → wire bs = [] → bs = [].
Proof.
  intros Hall Hw. destruct bs as [|b bs]; [reflexivity|].
  apply Forall_cons in Hall. destruct Hall as [Hb _].
  simpl in Hw. unfold frame in *.
  destruct (pack_u32_be (N.of_nat (length b))) as [h|] eqn:Hp; [|congruence].
  apply pack_u32_be_length in Hp. simpl in Hw.
  apply (f_equal length) in Hw. rewrite !length_app in Hw. simpl in Hw. lia.
Qed.

Lemma Forall_concat_inv {A} (P : A → Prop) (xss : list (list A)) xs :
  Forall P (concat (xs :: xss)) → Forall P xs ∧ Forall P (concat xss).
Proof. simpl. apply Forall_app. Qed.

(** The next delivery from chunks that are made of whole frames: the
    frames of the first chunk that has any, or nothing at the end of the
    stream. *)
Lemma next_chunk_wire bss :
  Forall (fun b => frame b ≠ None) (concat bss) →
  ∃ bs1 bss1,
    next_chunk (map wire bss) = (wire bs1, map wire bss1) ∧
    bs1 ++ concat bss1 = concat bss ∧
    (bs1 = [] → bss1 = []).
Proof.
  induction bss as [|bs bss IH]; intros Hall.
  - exists [], []. repeat split.
  - apply Forall_concat_inv in Hall. destruct Hall as [Hbs Hall].
    destruct (wire bs) as [|x w] eqn:Ew.
    + apply (wire_nil_inv bs Hbs) in Ew. subst bs.
      destruct (IH Hall) as (bs1 & bss1 & Hn & Hc & He).
      exists bs1, bss1. repeat split; assumption.
    + exists bs, bss. split; [simpl; rewrite Ew; reflexivity|].
      split; [reflexivity|]. intros ->. discriminate.
Qed.

Lemma deliver_wire k bs0 bss :
  Forall (fun b => frame b ≠ None) (concat bss) →
  ∃ bs0' bss',
    deliver k {| buffered := wire bs0; arriving := map wire bss |}
    = {| buffered := wire bs0'; arriving := map wire bss' |} ∧
    bs0' ++ concat bss' = bs0 ++ concat bss.
Proof.
  revert bs0 bss. induction k as [|k IH]; intros bs0 bss Hall.
  - exists bs0, bss. split; reflexivity.
  - destruct (next_chunk_wire bss Hall) as (bs1 & bss1 & Hn & Hc & _).
    cbn [deliver buffered arriving]. rewrite Hn, <- wire_app.
    destruct (IH (bs0 ++ bs1) bss1) as (bs0' & bss' & Hd & Hc').
    { rewrite <- Hc in Hall. apply Forall_app in Hall. tauto. }
    exists bs0', bss'. split; [exact Hd|]. rewrite Hc', <- app_assoc, Hc. reflexivity.
Qed.

Lemma frame_nonempty b f : frame b = Some f → f ≠ [].
Proof.
  intros Hf ->. apply frame_length in Hf. simpl in Hf. lia.
Qed.

(** Reading from a stream whose chunk boundaries fall between frames
    yields the first message, and leaves a stream of the same kind. *)
Lemma read_frame_wire bs0 bss :
  Forall (fun b => frame b ≠ None) (bs0 ++ concat bss) →
  match bs0 ++ concat bss with
  | [] => ∃ r', read_frame {| buffered := wire bs0; arriving := map wire bss |}
                = (FrameEof, r')
  | b :: rest =>
      ∃ bs0' bss',
        read_frame {| buffered := wire bs0; arriving := map wire bss |}
        = (FrameBody (N.of_nat (length b)) b,
           {| buffered := wire bs0'; arriving := map wire bss' |}) ∧
        bs0' ++ concat bss' = rest
  end.
Proof.
  intros Hall.
  assert (Hcons : ∀ b bs bss0,
            frame b ≠ None →
            read_frame {| buffered := wire (b :: bs); arriving := map wire bss0 |}
            = (FrameBody (N.of_nat (length b)) b,
               {| buffered := wire bs; arriving := map wire bss0 |})).
  { intros b bs bss0 Hb. simpl. destruct (frame b) as [f|] eqn:Hf; [|congruence].
    simpl. apply (read_frame_whole b f _ _ Hf). }
  destruct bs0 as [|b bs0].
  - simpl in Hall. destruct (next_chunk_wire bss Hall) as (bs1 & bss1 & Hn & Hc & He).
    cbn [app]. rewrite <- Hc. destruct bs1 as [|b bs1].
    + rewrite (He eq_refl). simpl. eexists.
      unfold read_frame, read, wait_for_data. simpl. rewrite Hn. reflexivity.
    + simpl app. rewrite <- Hc in Hall. simpl in Hall. apply Forall_cons in Hall.
      destruct Hall as [Hb Hall].
      exists bs1, bss1. split; [|reflexivity].
      rewrite <- (Hcons b bs1 bss1 Hb).
      unfold read_frame, read, wait_for_data. cbn [buffered arriving wire N.eqb].
      rewrite Hn. cbn [wire]. destruct (frame b) as [f|] eqn:Hf; [|congruence].
      pose proof (frame_nonempty b f Hf) as Hne.
      cbn [default]. destruct f as [|x f]; [contradiction | reflexivity].
  - simpl in Hall. apply Forall_cons in Hall. destruct Hall as [Hb Hall].
    simpl app. exists bs0, bss. split; [apply Hcons, Hb | reflexivity].
Qed.

Lemma wire_concat bss : concat (map wire bss) = wire (concat bss).
Proof.
  induction bss as [|bs bss IH]; [reflexivity|].
  simpl. rewrite IH, wire_app. reflexivity.
Qed.

Lemma wire_length bs :
  Forall (fun b => frame b ≠ None) bs → length bs ≤ length (wire bs).
Proof.
  induction 1 as [|b bs Hb _ IH]; [reflexivity|].
  simpl. destruct (frame b) as [f|] eqn:Hf; [|congruence].
  apply frame_length in Hf. simpl. rewrite length_app. lia.
Qed.

Section Transparency.
Variable DEV_MODE : bool.
Variable json_loads : list byte → option pyval.
Variable json_dumps : IpcResponse → list byte.

Local Abbreviation serve := (serve_frame DEV_MODE json_loads json_dumps).
Local Abbreviation loop := (handle_client_loop DEV_MODE json_loads json_dumps).
Local Abbreviation direct := (dispatch_all DEV_MODE json_loads json_dumps).

Lemma handle_client_loop_wire envs bodies :
  Forall (fun b => frame b ≠ None) bodies →
  ∀ fuel i bs0 bss out c,
    bs0 ++ concat bss = bodies → length bodies < fuel →
    loop fuel envs i {| buffered := wire bs0; arriving := map wire bss |} out c
    = direct envs i bodies out c.
Proof.
  induction 1 as [|b rest Hb Hrest IH]; intros fuel i bs0 bss out c Hbodies Hfuel.
  - destruct fuel as [|fuel]; [lia|]. cbn [handle_client_loop dispatch_all].
    pose proof (read_frame_wire bs0 bss) as Hread. rewrite Hbodies in Hread.
    destruct (Hread ltac:(constructor)) as [r' Hr]. unfold serve_frame. rewrite Hr.
    reflexivity.
  - destruct fuel as [|fuel]; [lia|]. cbn [handle_client_loop dispatch_all].
    pose proof (read_frame_wire bs0 bss) as Hread. rewrite Hbodies in Hread.
    destruct (Hread ltac:(constructor; assumption)) as (bs0' & bss' & Hr & Hc).
    unfold serve_frame. rewrite Hr.
    destruct (handle_message _ _ _ _ _ _) as [[why|data] c']; [reflexivity|].
    destruct (frame data) as [f|]; [|reflexivity].
    unfold after_write. destruct (drain (envs i)); [|reflexivity|reflexivity].
    destruct (deliver_wire (delivered_while_draining (envs i)) bs0' bss')
      as (bs1 & bss1 & Hd & Hc').
    { rewrite <- Hc in Hrest. apply Forall_app in Hrest. tauto. }
    rewrite Hd. apply IH; [congruence | simpl in Hfuel; lia].
Qed.

(** X17: the byte stream is transparent when chunk boundaries fall between
    frames.  Whether the frames are already in the buffer or arrive later,
    one or several to a chunk, whatever arrives while responses are
    drained, and however the drains go, [handle_client] does what the
    messages themselves call for: it answers them in order and stops at the
    first that fails, or at the first whose response is not drained (the
    connection is lost, or the peer does not read); the messages after that
    one are not dispatched.  It writes the frames of the answers in order
    and leaves the authority as the requests dispatched made it. *)
Theorem handle_client_transparent (envs : nat → FrameEnv) (bs0 : list (list byte))
    (bss : list (list (list byte))) (c : KalpanaCore) :
  Forall (fun b => frame b ≠ None) (bs0 ++ concat bss) →
  handle_client DEV_MODE json_loads json_dumps envs
    {| buffered := wire bs0; arriving := map wire bss |} c
  = direct envs 0 (bs0 ++ concat bss) [] c.
Proof.
  intros Hall. unfold handle_client.
  apply (handle_client_loop_wire envs _ Hall); [reflexivity|].
  unfold stream_size. cbn [buffered arriving].
  rewrite wire_concat, <- length_app, <- wire_app.
  pose proof (wire_length _ Hall). lia.
Qed.

(** X18: a request whose command is none of the four known ones is
    answered with an error message naming the command: the frame of that
    message is handed to the writer and the authority is as before.  What
    follows is up to the drain: when it returns the loop goes on with the
    rest of the stream, when it raises the loop is left, and when the peer
    does not read the handler waits. *)
Theorem unknown_command_answered (env : FrameEnv) (msg_data f fr rest : list byte)
    (arr : list (list byte)) (d : list (string * pyval)) (c : KalpanaCore) :
  let cmd := dict_get (dict_of_pairs d) "command" PNone in
  frame msg_data = Some f →
  json_loads msg_data = Some (PDict d) →
  Forall (fun known => py_eq_str cmd known = false)
    ["execute"; "status"; "audit"; "explain"] →
  frame (json_dumps (ErrorReply cmd)) = Some fr →
  serve env {| buffered := f ++ rest; arriving := arr |} c
  = after_write env fr {| buffered := rest; arriving := arr |} c ∧
  (drain env = Drained →
   serve env {| buffered := f ++ rest; arriving := arr |} c
   = Continue fr
       (deliver (delivered_while_draining env) {| buffered := rest; arriving := arr |}) c) ∧
  (drain env = DrainRaised →
   serve env {| buffered := f ++ rest; arriving := arr |} c
   = Lost fr {| buffered := rest; arriving := arr |} c) ∧
  (drain env = DrainBlocked →
   serve env {| buffered := f ++ rest; arriving := arr |} c
   = Stalled fr {| buffered := rest; arriving := arr |} c).
Proof.
  intros cmd Hf Hl Hknown Hfr.
  apply Forall_cons in Hknown. destruct Hknown as [He Hknown].
  apply Forall_cons in Hknown. destruct Hknown as [Hs Hknown].
  apply Forall_cons in Hknown. destruct Hknown as [Ha Hknown].
  apply Forall_cons in Hknown. destruct Hknown as [Hx _].
  assert (Hserve : serve env {| buffered := f ++ rest; arriving := arr |} c
                   = after_write env fr {| buffered := rest; arriving := arr |} c).
  { unfold serve_frame. rewrite (read_frame_whole _ _ _ _ Hf).
    unfold handle_message. rewrite Hl. unfold process_request, process_request_with.
    fold cmd. rewrite He, Hs, Ha, Hx. unfold ret. cbn [json_serializable].
    rewrite Hfr. reflexivity. }
  split; [exact Hserve|].
  rewrite Hserve. unfold after_write.
  repeat split; intros Hd; rewrite Hd; reflexivity.
Qed.

(** The turn of the loop that serves an audit request. *)
Lemma serve_frame_audit env msg_data f rest arr d c :
  frame msg_data = Some f →
  json_loads msg_data = Some (PDict d) →
  dict_get (dict_of_pairs d) "command" PNone = PStr "audit" →
  serve env {| buffered := f ++ rest; arriving := arr |} c
  = match entries (audit c) with
    | [] =>
        match frame (json_dumps (AuditReply [])) with
        | None => Stop (ConnectionError ResponseTooLong)
                    {| buffered := rest; arriving := arr |} c
        | Some fr => after_write env fr {| buffered := rest; arriving := arr |} c
        end
    | _ :: _ =>
        Stop (ConnectionError NotSerializable) {| buffered := rest; arriving := arr |} c
    end.
Proof.
  intros Hf Hl Hcmd.
  assert (Hq : query (audit c) None None 50
               = drop (length (entries (audit c)) - 50) (entries (audit c))).
  { destruct (query_positive_limit (audit c) None None 50 ltac:(lia)) as [Hq _].
    rewrite Hq, matching_unfiltered. reflexivity. }
  unfold serve_frame. rewrite (read_frame_whole _ _ _ _ Hf).
  unfold handle_message. rewrite Hl. unfold process_request, process_request_with. rewrite Hcmd.
  cbn [py_eq_str]. rewrite !bool_decide_eq_false_2 by discriminate.
  rewrite bool_decide_eq_true_2 by reflexivity.
  unfold bind, gets, ret. rewrite Hq.
  destruct (entries (audit c)) as [|e es] eqn:E; [reflexivity|].
  destruct (drop (length (e :: es) - 50) (e :: es)) as [|e' es'] eqn:Ed; [|reflexivity].
  exfalso. apply (f_equal length) in Ed. rewrite length_drop in Ed. simpl in Ed. lia.
Qed.

(** X19: the audit command cannot answer once something is logged.  The
    reply holds the entries as Python objects, which the JSON encoder
    rejects: the connection is closed without a response.  Only while the
    log is empty is a reply written, an empty list; the loop then goes on
    as the drain allows. *)
Theorem audit_reply_not_serializable (env : FrameEnv) (msg_data f rest : list byte)
    (arr : list (list byte)) (d : list (string * pyval)) (c : KalpanaCore) :
  frame msg_data = Some f →
  json_loads msg_data = Some (PDict d) →
  dict_get (dict_of_pairs d) "command" PNone = PStr "audit" →
  (entries (audit c) ≠ [] →
   serve env {| buffered := f ++ rest; arriving := arr |} c
   = Stop (ConnectionError NotSerializable) {| buffered := rest; arriving := arr |} c) ∧
  (entries (audit c) = [] →
   ∀ fr, frame (json_dumps (AuditReply [])) = Some fr →
   serve env {| buffered := f ++ rest; arriving := arr |} c
   = after_write env fr {| buffered := rest; arriving := arr |} c).
Proof.
  intros Hf Hl Hcmd. rewrite (serve_frame_audit env _ _ rest arr _ c Hf Hl Hcmd). split.
  - intros Hne. destruct (entries (audit c)); [contradiction | reflexivity].
  - intros -> fr ->. reflexivity.
Qed.
End Transparency.

(** * Properties of an exchange between the shell, the client and the authority *)

Section ExchangeFacts.
Variable DEV_MODE : bool.
Variable json_loads : list byte → option pyval.
Variable json_dumps : IpcResponse → list byte.
Variable json_dumps_request : gmap string pyval → list byte.

Local Abbreviation ask_via_client env c pid uid err :=
  (fun command : string =>
     (send_request json_loads json_dumps_request true true
        (core_peer DEV_MODE json_loads json_dumps env c) err
        (client_execute command None pid uid)).1).

(** What the authority answers to the frame of a request that decodes to a
    payload of the client library's [execute]. *)
Lemma serve_client_execute env c command args pid uid f d :
  frame (json_dumps_request (client_execute command args pid uid)) = Some f →
  json_loads (json_dumps_request (client_execute command args pid uid)) = Some (PDict d) →
  dict_of_pairs d = client_execute command args pid uid →
  serve_frame DEV_MODE json_loads json_dumps env {| buffered := f; arriving := [] |} c
  = match handle_execute (call_env env) (client_execute command args pid uid) c with
    | (Raise e, c') =>
        Stop (ConnectionError (HandlerRaised e)) {| buffered := []; arriving := [] |} c'
    | (Ok r, c') =>
        match frame (json_dumps (ExecuteReply r)) with
        | None => Stop (ConnectionError ResponseTooLong)
                    {| buffered := []; arriving := [] |} c'
        | Some fr => after_write env fr {| buffered := []; arriving := [] |} c'
        end
    end.
Proof.
  intros Hf Hl Hd. unfold serve_frame.
  rewrite <- (app_nil_r f), (read_frame_whole _ _ _ _ Hf).
  unfold handle_message. rewrite Hl, Hd.
  rewrite (process_request_execute _ _ _ _ (client_execute_routes command args pid uid)).
  destruct (handle_execute _ _ _) as [[r|e] c']; reflexivity.
Qed.

Lemma read_frame_one_chunk data f :
  frame data = Some f →
  read_frame {| buffered := []; arriving := [f] |}
  = (FrameBody (N.of_nat (length data)) data, {| buffered := []; arriving := [] |}).
Proof.
  intros Hf. rewrite <- (read_frame_whole data f [] [] Hf), app_nil_r.
  pose proof (frame_nonempty data f Hf) as Hne.
  unfold read_frame, read, wait_for_data. cbn [buffered arriving next_chunk N.eqb].
  destruct f as [|x f]; [contradiction | reflexivity].
Qed.

(** X20: the shell never blocks a command.  For a command line that is
    neither internal nor a [cd], a connected shell asks the authority
    through the client library; when the authority trusts the name
    "kalpana-shell", which the library always sends, and can write its log,
    and the JSON codec gives back what was sent, the answer is "allow" and
    the command is handed to the system shell, whatever it is. *)
Theorem shell_runs_every_command (env : FrameEnv) (c : KalpanaCore) (pid uid : Z)
    (err command : string) (d : list (string * pyval)) :
  let request := client_execute command None pid uid in
  let reply :=
    {| er_request_id :=
         format_request_id (now_id (call_env env)) (request_counter c + 1);
       er_decision := "allow";
       er_reason := "Trusted process: kalpana-shell";
       er_allowed := true |} in
  String.prefix "." command = false →
  String.prefix "cd " command = false →
  command ≠ "cd" →
  "kalpana-shell" ∈ trusted_processes (policy c) →
  disk_ok (call_env env) = true →
  frame (json_dumps_request request) ≠ None →
  frame (json_dumps (ExecuteReply reply)) ≠ None →
  json_loads (json_dumps_request request) = Some (PDict d) →
  dict_of_pairs d = request →
  json_loads (json_dumps (ExecuteReply reply)) = Some (PDict (execute_reply_members reply)) →
  execute_command true (ask_via_client env c pid uid err) command
  = RunInShell command None.
Proof.
  intros request reply Hdot Hcd Hncd Htrust Hdisk Hfq Hfr Hlq Hdq Hlr.
  unfold execute_command. rewrite Hdot, Hcd.
  rewrite bool_decide_eq_false_2 by exact Hncd.
  destruct (frame (json_dumps_request request)) as [f|] eqn:Ef; [|congruence].
  destruct (frame (json_dumps (ExecuteReply reply))) as [fr|] eqn:Efr; [|congruence].
  assert (Hserve : core_peer DEV_MODE json_loads json_dumps env c f
                   = {| buffered := []; arriving := [fr] |}).
  { unfold core_peer.
    rewrite (serve_client_execute (with_reading_peer env) c command None pid uid f d
               Ef Hlq Hdq).
    cbn [call_env with_reading_peer].
    destruct (handle_execute_client (call_env env) command None pid uid c
                Htrust Hdisk) as [c' Hc'].
    rewrite Hc'. fold reply. rewrite Efr. reflexivity. }
  unfold send_request. simpl negb. cbn [andb]. fold request. rewrite Ef, Hserve.
  rewrite (read_frame_one_chunk _ _ Efr), Hlr. cbn [fst].
  reflexivity.
Qed.
End ExchangeFacts.

Section ExchangeFailures.
Variable DEV_MODE : bool.
Variable json_loads : list byte → option pyval.
Variable json_dumps : IpcResponse → list byte.
Variable json_dumps_request : gmap string pyval → list byte.

Lemma read_frame_closed :
  read_frame {| buffered := []; arriving := [] |}
  = (FrameEof, {| buffered := []; arriving := [] |}).
Proof. reflexivity. Qed.

(** X21: when the authority cannot write its log file, the shell reports
    the command as blocked by policy although the policy allowed it.  The
    authority records the decision "allow" and then raises; its connection
    is closed without an answer; the client library turns that into an
    error dictionary, in which the shell finds no [allowed] member. *)
Theorem shell_blocks_on_log_failure (env : FrameEnv) (c : KalpanaCore) (pid uid : Z)
    (err command : string) (d : list (string * pyval)) :
  let request := client_execute command None pid uid in
  String.prefix "." command = false →
  String.prefix "cd " command = false →
  command ≠ "cd" →
  "kalpana-shell" ∈ trusted_processes (policy c) →
  disk_ok (call_env env) = false →
  frame (json_dumps_request request) ≠ None →
  json_loads (json_dumps_request request) = Some (PDict d) →
  dict_of_pairs d = request →
  execute_command true
    (fun command' =>
       (send_request json_loads json_dumps_request true true
          (core_peer DEV_MODE json_loads json_dumps env c) err
          (client_execute command' None pid uid)).1) command
  = Blocked (PStr "Policy denied") ∧
  ∃ resp,
    last_decision (handle_execute (call_env env) request c).2 = Some resp ∧
    decision resp = ALLOW.
Proof.
  intros request Hdot Hcd Hncd Htrust Hdisk Hfq Hlq Hdq.
  assert (Hrun : ∃ resp c',
            handle_execute (call_env env) request c = (Raise OSError, c') ∧
            last_decision c' = Some resp ∧ decision resp = ALLOW).
  { rewrite handle_execute_unfold. cbv zeta.
    set (ar := action_request_of _ _ _).
    rewrite (evaluate_system_command (policy c) ar eq_refl).
    assert (Hn : requestor_name ar = PStr "kalpana-shell").
    { unfold ar, request, action_request_of, dict_get, client_execute. simpl.
      simplify_map_eq. reflexivity. }
    rewrite (trusted_rule_trusted (policy c) ar "kalpana-shell" Hn Htrust), Hdisk.
    eexists _, _. split; [reflexivity|]. split; reflexivity. }
  destruct Hrun as (resp & c' & Hrun & Hlast & Hdec).
  split; [|exists resp; rewrite Hrun; auto].
  unfold execute_command. rewrite Hdot, Hcd.
  rewrite bool_decide_eq_false_2 by exact Hncd.
  destruct (frame (json_dumps_request request)) as [f|] eqn:Ef; [|congruence].
  assert (Hserve : core_peer DEV_MODE json_loads json_dumps env c f
                   = {| buffered := []; arriving := [] |}).
  { unfold core_peer.
    rewrite (serve_client_execute DEV_MODE json_loads json_dumps json_dumps_request
               (with_reading_peer env) c command None pid uid f d Ef Hlq Hdq).
    cbn [call_env with_reading_peer]. fold request. rewrite Hrun. reflexivity. }
  unfold send_request. simpl negb. cbn [andb]. fold request.
  rewrite Ef, Hserve, read_frame_closed. reflexivity.
Qed.

(** X22: the client library cannot fetch a log that has entries.  For any
    limit asked, [get_audit_log] sends the audit request, the authority
    fails to encode its reply and closes the connection, and the library
    returns the error dictionary "Connection closed". *)
Theorem get_audit_log_fails_when_logged (env : FrameEnv) (c : KalpanaCore) (limit : Z)
    (err : string) (d : list (string * pyval)) :
  let request := client_get_audit_log limit in
  entries (audit c) ≠ [] →
  frame (json_dumps_request request) ≠ None →
  json_loads (json_dumps_request request) = Some (PDict d) →
  dict_of_pairs d = request →
  send_request json_loads json_dumps_request true true
    (core_peer DEV_MODE json_loads json_dumps env c) err request
  = (PDict [("error", PStr "Connection closed")], true).
Proof.
  intros request Hne Hfq Hlq Hdq.
  destruct (frame (json_dumps_request request)) as [f|] eqn:Ef; [|congruence].
  assert (Hcmd : dict_get (dict_of_pairs d) "command" PNone = PStr "audit").
  { rewrite Hdq. unfold request, client_get_audit_log, dict_get.
    simplify_map_eq. reflexivity. }
  assert (Hserve : core_peer DEV_MODE json_loads json_dumps env c f
                   = {| buffered := []; arriving := [] |}).
  { unfold core_peer. rewrite <- (app_nil_r f).
    rewrite (serve_frame_audit DEV_MODE json_loads json_dumps (with_reading_peer env)
               _ f [] [] d c Ef Hlq Hcmd).
    destruct (entries (audit c)); [contradiction | reflexivity]. }
  unfold send_request. simpl negb. cbn [andb]. fold request.
  rewrite Ef, Hserve, read_frame_closed. reflexivity.
Qed.
End ExchangeFailures.

(** * The further properties on the sample messages *)

Lemma handle_client_writes_whole_frames_witness :
  let s := handle_client true sample_loads sample_dumps peer_not_reading_envs
             {| buffered := wire (repeat (command_text "status") 5); arriving := [] |}
             fresh_core in
  ending s = Some WaitsInDrain ∧
  (∃ k, frames_served s = S k ∧ drain (peer_not_reading_envs k) = DrainBlocked) ∧
  frames_served s = 3.
Proof.
  intros s. assert (Hw : ending s = Some WaitsInDrain) by (vm_compute; reflexivity).
  split; [exact Hw|]. split; [|vm_compute; reflexivity].
  apply (handle_client_writes_whole_frames true sample_loads sample_dumps
           peer_not_reading_envs
           {| buffered := wire (repeat (command_text "status") 5); arriving := [] |}
           fresh_core).
  exact Hw.
Defined.

Lemma handle_client_transparent_witness :
  handle_client true sample_loads sample_dumps peer_gone_envs
    {| buffered := wire [command_text "status"];
       arriving := map wire [[command_text "reboot"]] |} fresh_core
  = dispatch_all true sample_loads sample_dumps peer_gone_envs 0
      ([command_text "status"] ++ concat [[command_text "reboot"]]) [] fresh_core.
Proof.
  apply (handle_client_transparent true sample_loads sample_dumps peer_gone_envs
           [command_text "status"] [[command_text "reboot"]] fresh_core).
  repeat constructor; vm_compute; discriminate.
Defined.

Lemma unknown_command_answered_witness :
  serve_frame true sample_loads sample_dumps (quiet_envs 0)
    {| buffered := default [] (frame (command_text "reboot")) ++ []; arriving := [] |}
    fresh_core
  = Continue (default [] (frame (sample_dumps (ErrorReply (PStr "reboot")))))
      (deliver 0 {| buffered := []; arriving := [] |}) fresh_core.
Proof.
  apply (unknown_command_answered true sample_loads sample_dumps (quiet_envs 0)
           (command_text "reboot") _ _ [] [] [("command", PStr "reboot")] fresh_core).
  - vm_compute. reflexivity.
  - vm_compute. reflexivity.
  - repeat constructor.
  - vm_compute. reflexivity.
  - reflexivity.
Defined.

Lemma audit_reply_not_serializable_witness :
  serve_frame true sample_loads sample_dumps (quiet_envs 0)
    {| buffered := default [] (frame (command_text "audit")) ++ []; arriving := [] |}
    busy_core
  = Stop (ConnectionError NotSerializable) {| buffered := []; arriving := [] |} busy_core.
Proof.
  apply (audit_reply_not_serializable true sample_loads sample_dumps (quiet_envs 0)
           (command_text "audit") _ [] [] [("command", PStr "audit")] busy_core).
  - vm_compute. reflexivity.
  - vm_compute. reflexivity.
  - vm_compute. reflexivity.
  - vm_compute. discriminate.
Defined.

Lemma fresh_core_trusts_shell : "kalpana-shell" ∈ trusted_processes (policy fresh_core).
Proof. unfold fresh_core, KalpanaCore_init, PolicyEngine_init. simpl. set_solver. Qed.

Lemma shell_runs_every_command_witness :
  execute_command true
    (fun command =>
       (send_request sample_loads sample_dumps_request true true
          (core_peer true sample_loads sample_dumps (quiet_envs 0) fresh_core) "boom"
          (client_execute command None 4242 1000)).1) "ls -la"
  = RunInShell "ls -la" None.
Proof.
  apply (shell_runs_every_command true sample_loads sample_dumps sample_dumps_request
           (quiet_envs 0) fresh_core 4242 1000 "boom" "ls -la" ls_request_members).
  - reflexivity.
  - reflexivity.
  - discriminate.
  - apply fresh_core_trusts_shell.
  - reflexivity.
  - vm_compute. discriminate.
  - vm_compute. discriminate.
  - vm_compute. reflexivity.
  - vm_compute. reflexivity.
  - vm_compute. reflexivity.
Defined.

Lemma shell_blocks_on_log_failure_witness :
  execute_command true
    (fun command =>
       (send_request sample_loads sample_dumps_request true true
          (core_peer true sample_loads sample_dumps disk_full_env fresh_core) "boom"
          (client_execute command None 4242 1000)).1) "ls -la"
  = Blocked (PStr "Policy denied").
Proof.
  apply (shell_blocks_on_log_failure true sample_loads sample_dumps sample_dumps_request
           disk_full_env fresh_core 4242 1000 "boom" "ls -la" ls_request_members).
  - reflexivity.
  - reflexivity.
  - discriminate.
  - apply fresh_core_trusts_shell.
  - reflexivity.
  - vm_compute. discriminate.
  - vm_compute. reflexivity.
  - vm_compute. reflexivity.
Defined.

Lemma get_audit_log_fails_when_logged_witness :
  send_request sample_loads sample_dumps_request true true
    (core_peer true sample_loads sample_dumps (quiet_envs 0) busy_core) "boom"
    (client_get_audit_log 10)
  = (PDict [("error", PStr "Connection closed")], true).
Proof.
  apply (get_audit_log_fails_when_logged true sample_loads sample_dumps
           sample_dumps_request (quiet_envs 0) busy_core 10 "boom" audit_limit_members).
  - vm_compute. discriminate.
  - vm_compute. discriminate.
  - vm_compute. reflexivity.
  - vm_compute. reflexivity.
Defined.

(** * Identifiers of the audit entries *)

Lemma ids_made_from_step DEV_MODE env payload c made :
  datetime_wf (now_id env) → ids_made_from c made →
  ∃ made', ids_made_from (process_request DEV_MODE env payload c).2 made'.
Proof.
  intros Hwf (Hids & Hall & Hsorted).
  destruct (routes_to_execute_dec payload) as [Hr|Hr].
  - rewrite (process_request_execute _ _ _ _ Hr), handle_execute_unfold. cbv zeta.
    assert (Hkeep : ids_made_from (set_request_counter (request_counter c + 1) c) made).
    { split; [exact Hids|]. split; [|exact Hsorted].
      eapply Forall_impl; [exact Hall|]. simpl. intros p [Hp Hle]. split; [exact Hp | lia]. }
    destruct (evaluate _ _) as [resp|ex]; [|exists made; exact Hkeep].
    exists (made ++ [(now_id env, (request_counter c + 1)%N)]).
    assert (Hnew : ∀ c2,
              map (fun e => id (request e)) (entries (audit c2))
              = map (fun e => id (request e)) (entries (audit c))
                ++ [format_request_id (now_id env) (request_counter c + 1)] →
              request_counter c2 = (request_counter c + 1)%N →
              ids_made_from c2 (made ++ [(now_id env, (request_counter c + 1)%N)])).
    { intros c2 He Hc. split; [|split].
      - rewrite He, Hids, map_app. reflexivity.
      - apply Forall_app. split.
        + eapply Forall_impl; [exact Hall|]. simpl. intros p [Hp Hle].
          split; [exact Hp | lia].
        + constructor; [|constructor]. simpl. split; [exact Hwf | lia].
      - apply StronglySorted_app_2; [| exact Hsorted | repeat constructor].
        intros p q Hp Hq. apply list_elem_of_singleton in Hq. subst q. simpl.
        rewrite Forall_forall in Hall. destruct (Hall p Hp) as [_ Hle]. lia. }
    destruct (disk_ok env); apply Hnew; simpl; try reflexivity;
      rewrite map_app; reflexivity.
  - rewrite (process_request_read_only _ _ _ _ Hr). exists made. repeat split; assumption.
Qed.

Lemma ids_made_from_run DEV_MODE calls c made :
  Forall (fun call => datetime_wf (now_id call.1)) calls → ids_made_from c made →
  ∃ made', ids_made_from (process_requests DEV_MODE calls c).2 made'.
Proof.
  intros Hall. revert c made.
  induction Hall as [|[env payload] calls Hwf Hall IH]; intros c made Hinv.
  - exists made. exact Hinv.
  - simpl. destruct (ids_made_from_step DEV_MODE env payload c made Hwf Hinv)
      as [made1 Hinv1].
    destruct (process_request DEV_MODE env payload c) as [r c1]. simpl in Hinv1.
    destruct (IH c1 made1 Hinv1) as [made2 Hinv2].
    destruct (process_requests DEV_MODE calls c1) as [rs c2]. simpl in *.
    exists made2. exact Hinv2.
Qed.

Lemma made_ids_distinct made :
  Forall (fun p : datetime * N => datetime_wf p.1) made →
  StronglySorted (fun p q : datetime * N => (p.2 < q.2)%N) made →
  NoDup (map (fun p => format_request_id p.1 p.2) made).
Proof.
  intros Hwf Hsorted. induction Hsorted as [|p made Hsorted IH Hlt]; [constructor|].
  apply Forall_cons in Hwf. destruct Hwf as [Hp Hwf].
  simpl. constructor; [|apply IH, Hwf].
  intros Hin. apply list_elem_of_fmap in Hin. destruct Hin as (q & Heq & Hq).
  rewrite Forall_forall in Hwf, Hlt.
  apply format_request_id_inj in Heq; [|exact Hp | apply Hwf, Hq].
  specialize (Hlt q Hq). lia.
Qed.

(** X23: the identifiers in the audit log are pairwise distinct.  After
    any sequence of requests served since start-up, failed ones included,
    no two audit entries carry the same request identifier. *)
Theorem audit_ids_unique (DEV_MODE : bool) (docs : list pyval) (file : list LogLine)
    (calls : list (CallEnv * gmap string pyval)) :
  Forall (fun call => datetime_wf (now_id call.1)) calls →
  NoDup (map (fun e => id (request e))
           (entries (audit (process_requests DEV_MODE calls
                              (KalpanaCore_init docs file)).2))).
Proof.
  intros Hall.
  destruct (ids_made_from_run DEV_MODE calls (KalpanaCore_init docs file) [] Hall)
    as (made & Hids & Hmade & Hsorted).
  { split; [reflexivity|]. split; constructor. }
  rewrite Hids. apply made_ids_distinct; [|exact Hsorted].
  eapply Forall_impl; [exact Hmade|]. simpl. tauto.
Qed.

Lemma audit_ids_unique_witness :
  NoDup (map (fun e => id (request e))
           (entries (audit (process_requests true sample_calls
                              (KalpanaCore_init [] [])).2))).
Proof.
  apply (audit_ids_unique true [] [] sample_calls).
  repeat constructor; simpl; lia.
Defined.

(** * Messages that are no requests *)

Section Malformed.
Variable DEV_MODE : bool.
Variable json_loads : list byte → option pyval.
Variable json_dumps : IpcResponse → list byte.

(** X24: a message that is not the text of a JSON object is not answered.
    Whether it fails to decode or decodes to an array, a string, a number,
    a boolean or null, the connection is closed without an error message,
    and the authority is as before. *)
Theorem malformed_message_closes (env : FrameEnv) (msg_data f rest : list byte)
    (arr : list (list byte)) (c : KalpanaCore) :
  frame msg_data = Some f →
  (∀ d, json_loads msg_data ≠ Some (PDict d)) →
  ∃ why,
    serve_frame DEV_MODE json_loads json_dumps env
      {| buffered := f ++ rest; arriving := arr |} c
    = Stop (ConnectionError why) {| buffered := rest; arriving := arr |} c ∧
    (why = BadJson ∨ why = NotAnObject).
Proof.
  intros Hf Hnd. unfold serve_frame. rewrite (read_frame_whole _ _ _ _ Hf).
  unfold handle_message.
  destruct (json_loads msg_data) as [[| | | | |d]|] eqn:El;
    try (eexists; split; [reflexivity | auto]).
  exfalso. exact (Hnd d eq_refl).
Qed.
End Malformed.

Lemma malformed_message_closes_witness :
  ∃ why,
    serve_frame true sample_loads sample_dumps (quiet_envs 0)
      {| buffered := [x00; x00; x00; x02; x5b; x5d] ++ []; arriving := [] |} busy_core
    = Stop (ConnectionError why) {| buffered := []; arriving := [] |} busy_core ∧
    (why = BadJson ∨ why = NotAnObject).
Proof.
  apply (malformed_message_closes true sample_loads sample_dumps (quiet_envs 0)
           (bytes_of "[]") [x00; x00; x00; x02; x5b; x5d] [] [] busy_core).
  - vm_compute. reflexivity.
  - intros d. vm_compute. discriminate.
Defined.
